(** * ProjectCode (Codify): the AI service layer, the terminal, editor and
    sidebar components, and the embedding index, with their properties.

    The TypeScript sources are embedded shallowly:
    - JavaScript strings are sequences of UTF-16 code units ([list N]);
    - JavaScript numbers that carry fractions ([confidence], [ai_relevance])
      are binary64 floats; integer valued ones ([size], line numbers) are [Z];
    - a React component is a record of its [useState] cells; an event handler
      is a function from that record to the next one together with the
      effects it starts (service calls, timers, console output);
    - an [async] handler is split at its [await]: the part that runs up to the
      call, and the continuation that runs once the promise has settled. *)

From Stdlib Require Import Floats QArith DecimalString.
From stdpp Require Import base numbers strings list sorting gmap.

Set Warnings "-inexact-float".
#[local] Open Scope N_scope.

(** ** JavaScript strings *)

Module JSString.

Abbreviation jsstring := (list N).

(** Code points of a UTF-8 byte sequence (string literals of this file are
    UTF-8, those of the program UTF-16). *)
Fixpoint utf8_decode (bs : list N) : list N :=
  match bs with
  | [] => []
  | b0 :: r0 =>
    if b0 <? 0x80 then b0 :: utf8_decode r0
    else if b0 <? 0xE0 then
      match r0 with
      | b1 :: r1 =>
        N.lor (N.shiftl (N.land b0 0x1F) 6) (N.land b1 0x3F) :: utf8_decode r1
      | _ => []
      end
    else if b0 <? 0xF0 then
      match r0 with
      | b1 :: b2 :: r2 =>
        N.lor (N.shiftl (N.land b0 0x0F) 12)
          (N.lor (N.shiftl (N.land b1 0x3F) 6) (N.land b2 0x3F))
        :: utf8_decode r2
      | _ => []
      end
    else
      match r0 with
      | b1 :: b2 :: b3 :: r3 =>
        N.lor (N.shiftl (N.land b0 0x07) 18)
          (N.lor (N.shiftl (N.land b1 0x3F) 12)
             (N.lor (N.shiftl (N.land b2 0x3F) 6) (N.land b3 0x3F)))
        :: utf8_decode r3
      | _ => []
      end
  end.

Definition utf16_encode (cp : N) : list N :=
  if cp <? 0x10000 then [cp]
  else let c := cp - 0x10000 in
       [0xD800 + N.shiftr c 10; 0xDC00 + N.land c 0x3FF].

(** The program's string literal, as its code units. *)
Definition js (s : string) : jsstring :=
  mbind utf16_encode
    (utf8_decode (List.map Ascii.N_of_ascii (String.list_ascii_of_string s))).

Arguments js s%_string.

Definition dquote : N := 34.
Definition backtick : N := 96.

(** ECMAScript WhiteSpace and LineTerminator code units: what
    [String.prototype.trim] strips. *)
Definition isWhiteSpace (c : N) : bool :=
  (c =? 0x09) || (c =? 0x0A) || (c =? 0x0B) || (c =? 0x0C) || (c =? 0x0D)
  || (c =? 0x20) || (c =? 0xA0) || (c =? 0x1680)
  || ((0x2000 <=? c) && (c <=? 0x200A))
  || (c =? 0x2028) || (c =? 0x2029) || (c =? 0x202F) || (c =? 0x205F)
  || (c =? 0x3000) || (c =? 0xFEFF).

Fixpoint trimStart (s : jsstring) : jsstring :=
  match s with
  | [] => []
  | c :: r => if isWhiteSpace c then trimStart r else s
  end.

Definition trimEnd (s : jsstring) : jsstring := rev (trimStart (rev s)).

Definition trim (s : jsstring) : jsstring := trimEnd (trimStart s).

(** Truthiness of a string: every string but the empty one. *)
Definition truthy (s : jsstring) : bool :=
  match s with [] => false | _ => true end.

(** [s.split(sep)] for a separator of one code unit; never empty. *)
Fixpoint split (sep : N) (s : jsstring) : list jsstring :=
  match s with
  | [] => [[]]
  | c :: r =>
    if c =? sep then [] :: split sep r
    else match split sep r with
         | h :: t => (c :: h) :: t
         | [] => [[c]]
         end
  end.

(** [parts.join(sep)]. *)
Fixpoint join (sep : jsstring) (parts : list jsstring) : jsstring :=
  match parts with
  | [] => []
  | [p] => p
  | p :: ps => p ++ sep ++ join sep ps
  end.

Fixpoint startsWith (s p : jsstring) : bool :=
  match p, s with
  | [], _ => true
  | _ :: _, [] => false
  | a :: p', b :: s' => (a =? b) && startsWith s' p'
  end.

Fixpoint includes (s sub : jsstring) : bool :=
  startsWith s sub ||
  match s with
  | [] => false
  | _ :: r => includes r sub
  end.

Definition whitespace_only (s : jsstring) : bool := forallb isWhiteSpace s.

End JSString.

Import JSString.

(** A settled promise: fulfilled with a value, or rejected with an error
    (kept as the text [String(error)] the handlers print). *)
Inductive Settled (A : Type) : Type :=
  | Resolved (a : A)
  | Rejected (e : jsstring).
Arguments Resolved {A} a.
Arguments Rejected {A} e.

(** ** lib/tauri-api *)

Module TauriApi.

Record Position := { line : Z; column : Z }.

Inductive CompletionLevel := Line | Block | Component | Feature.

Record CompletionResult := {
  id : jsstring;
  level : CompletionLevel;
  confidence : float;
  code : jsstring;
  language : jsstring;
  alternatives : list jsstring
}.

Record AIContext := {
  project_path : jsstring;
  current_file : option jsstring;
  selected_text : option jsstring;
  cursor_position : Position
}.

Record ProjectFile := {
  path : jsstring;
  name : jsstring;
  file_type : jsstring;
  size : Z;
  modified : jsstring;
  ai_relevance : option float
}.

Record TerminalCommand := {
  command : jsstring;
  args : list jsstring;
  working_dir : jsstring
}.

Record TerminalResponse := {
  success : bool;
  output : jsstring;
  error : option jsstring;
  suggestions : list jsstring
}.

Record DesignPrompt := {
  description : jsstring;
  component_type : jsstring;
  style_preferences : gmap jsstring jsstring
}.

Record GeneratedDesign := {
  component_code : jsstring;
  styles : jsstring;
  props_interface : jsstring;
  preview_url : option jsstring
}.

(** [TauriAIService]: every method returns what [invoke] settles to.
    [reply] is the backend's answer to this call. *)
Module TauriAIService.
Definition completeCode (reply : Settled CompletionResult)
    (context : AIContext) (level : CompletionLevel)
  : Settled CompletionResult := reply.

Definition getAISuggestedFiles (reply : Settled (list ProjectFile))
    (currentFile projectPath : jsstring)
  : Settled (list ProjectFile) := reply.

Definition executeTerminalCommand (reply : Settled TerminalResponse)
    (command : TerminalCommand)
  : Settled TerminalResponse := reply.
End TauriAIService.

Definition buttonCode : jsstring :=
  join [0x0A]
    [ js "const Button = ({ children, variant = " ++ [dquote] ++ js "primary"
        ++ [dquote] ++ js ", ...props }) => {";
      js "  return (";
      js "    <button ";
      js "      className={" ++ [backtick] ++ js "btn btn-${variant}"
        ++ [backtick] ++ js "}";
      js "      {...props}";
      js "    >";
      js "      {children}";
      js "    </button>";
      js "  );";
      js "};" ].

Definition buttonFile : ProjectFile :=
  {| path := js "src/components/Button.tsx";
     name := js "Button.tsx";
     file_type := js "typescript";
     size := 2048;
     modified := js "2024-01-15T10:30:00Z";
     ai_relevance := Some 0.95%float |}.

(** [MockAIService]: the development fallback used outside Tauri. *)
Module MockAIService.
(** The object [completeCode] returns. *)
Definition completion (level : CompletionLevel) : CompletionResult :=
  {| id := js "1";
     level := level;
     confidence := 0.92%float;
     code := buttonCode;
     language := js "typescript";
     alternatives := [js "Styled components variant";
                      js "CSS modules variant"] |}.

Definition completeCode (_context : AIContext) (level : CompletionLevel)
  : Settled CompletionResult :=
  Resolved (completion level).

Definition getAISuggestedFiles (_currentFile _projectPath : jsstring)
  : Settled (list ProjectFile) :=
  Resolved [buttonFile].

Definition executeTerminalCommand (command : TerminalCommand)
  : Settled TerminalResponse :=
  Resolved
    {| success := true;
       output := js "Executed: " ++ command.(TauriApi.command) ++ js " "
                 ++ join (js " ") command.(args);
       error := None;
       suggestions := [js "This is a simulated response"] |}.

Definition generateDesign (prompt : DesignPrompt) : Settled GeneratedDesign :=
  Resolved
    {| component_code :=
         js "const " ++ prompt.(component_type)
         ++ js " = () => <div>Generated Component</div>;";
       styles := js ".generated { color: blue; }";
       props_interface :=
         js "interface " ++ prompt.(component_type) ++ js "Props { }";
       preview_url := None |}.
End MockAIService.

(** [export const AIService = isTauri ? TauriAIService : MockAIService]. *)
Module AIService.
Definition completeCode (isTauri : bool)
    (reply : Settled CompletionResult)
    (context : AIContext) (level : CompletionLevel)
  : Settled CompletionResult :=
  if isTauri then TauriAIService.completeCode reply context level
  else MockAIService.completeCode context level.

Definition getAISuggestedFiles (isTauri : bool)
    (reply : Settled (list ProjectFile))
    (currentFile projectPath : jsstring)
  : Settled (list ProjectFile) :=
  if isTauri
  then TauriAIService.getAISuggestedFiles reply currentFile projectPath
  else MockAIService.getAISuggestedFiles currentFile projectPath.

Definition executeTerminalCommand (isTauri : bool)
    (reply : Settled TerminalResponse) (command : TerminalCommand)
  : Settled TerminalResponse :=
  if isTauri then TauriAIService.executeTerminalCommand reply command
  else MockAIService.executeTerminalCommand command.
End AIService.

End TauriApi.

(** ** components/terminal/Terminal.tsx *)

Abbreviation Date := Z.

Module Terminal.
Import TauriApi.

Inductive LineType := Command | Output | Error | Suggestion.

Record TerminalLine := {
  type : LineType;
  content : jsstring;
  timestamp : option Date
}.

(** [loaded] is the time at which the module was evaluated. *)
Definition initialHistory (loaded : Date) : list TerminalLine :=
  [ {| type := Output; content := js "ProjectCode AI Terminal v1.0.0";
       timestamp := Some loaded |};
    {| type := Output;
       content := js "AI assistance enabled. Type commands or ask questions.";
       timestamp := Some loaded |};
    {| type := Command; content := js "npm run dev";
       timestamp := Some loaded |};
    {| type := Output; content := js "✓ Ready in 2.3s";
       timestamp := Some loaded |};
    {| type := Suggestion;
       content := js "💡 AI suggests: Try 'npm run build' to check for production errors";
       timestamp := Some loaded |} ].

#[global] Instance LineType_eq_dec : EqDecision LineType.
Proof. solve_decision. Defined.

#[global] Instance TerminalLine_eq_dec : EqDecision TerminalLine.
Proof. solve_decision. Defined.

(** The [useState] cells of the component. *)
Record State := {
  history : list TerminalLine;
  currentCommand : jsstring;
  isThinking : bool
}.

Definition initialState (loaded : Date) : State :=
  {| history := initialHistory loaded; currentCommand := [];
     isThinking := false |}.

(** What a handler starts besides updating the state. *)
Inductive Effect :=
  | ExecuteTerminalCommand (c : TerminalCommand).

(** [executeCommand], up to its [await]; [now] is the clock reading.
    [st] holds the values the handler closes over, those of the render it
    was created in. Past its guard the handler sets all three cells, the
    history to [newHistory], built from the history of that render. *)
Definition executeCommand (now : Date) (st : State) (command : jsstring)
  : State * list Effect :=
  if negb (truthy (trim command)) then (st, [])
  else
    let newHistory :=
      st.(history) ++
      [ {| type := Command; content := command; timestamp := Some now |} ] in
    ( {| history := newHistory; currentCommand := []; isThinking := true |},
      [ ExecuteTerminalCommand
          {| TauriApi.command := hd [] (split 0x20 command);
             args := tl (split 0x20 command);
             working_dir := js "/current/project" |} ] ).

(** The lines built from a response, in push order. *)
Definition outputs (now : Date) (response : TerminalResponse)
  : list TerminalLine :=
  [ {| type := Output; content := response.(output);
       timestamp := Some now |} ]
  ++ match response.(TauriApi.error) with
     | Some e =>
       if truthy e
       then [ {| type := Error; content := e; timestamp := Some now |} ]
       else []
     | None => []
     end
  ++ (if (0 <? length response.(suggestions))%nat
      then List.map
             (fun suggestion =>
                {| type := Suggestion;
                   content := js "💡 AI suggests: " ++ suggestion;
                   timestamp := Some now |})
             response.(suggestions)
      else []).

(** [executeCommand] after its [await]: the rest of the [try] block, or the
    [catch] block, then [finally]. Both updates of the history are
    functional ([prev => ...]): they read the state at that time. *)
Definition executeCommand_settled (now : Date)
    (response : Settled TerminalResponse) (st : State) : State :=
  match response with
  | Resolved response =>
    {| history := st.(history) ++ outputs now response;
       currentCommand := st.(currentCommand);
       isThinking := false |}
  | Rejected error =>
    {| history :=
         st.(history) ++
         [ {| type := Error;
              content := js "Error executing command: " ++ error;
              timestamp := Some now |} ];
       currentCommand := st.(currentCommand);
       isThinking := false |}
  end.

Definition handleKeyPress (now : Date) (st : State) (key : jsstring)
  : State * list Effect :=
  if bool_decide (key = js "Enter")
  then executeCommand now st st.(currentCommand)
  else (st, []).

Definition onChange (st : State) (value : jsstring) : State :=
  {| history := st.(history); currentCommand := value;
     isThinking := st.(isThinking) |}.

(** The component: [ui] holds the state cells with every update made so
    far, [seen] their values at the last render, which are the values the
    handlers close over; [calls] are the service calls that have not settled
    yet. An update made by a handler is rendered some time later ([Render]);
    an event that arrives before is handled by the handlers of the last
    render. *)
Record World := {
  seen : State;
  ui : State;
  calls : list TerminalCommand
}.

Inductive Event :=
  | Change (value : jsstring)
  | KeyPress (key : jsstring)
  | Settle (i : nat) (reply : Settled TerminalResponse)
  | Render.

Definition started (effects : list Effect) : list TerminalCommand :=
  List.map (fun e => match e with ExecuteTerminalCommand c => c end) effects.

(** One event at time [now]; [None] when the event cannot happen.
    [handleKeyPress] runs on the values of the last render; it either
    returns at once, setting no cell and starting nothing, or sets the three
    cells to what it computed from those values. [setCurrentCommand(value)]
    sets one cell; the continuation of [executeCommand] appends to the
    history with a functional update [prev => ...], which reads the cell as
    it is then, and sets [isThinking]. *)
Definition step (isTauri : bool) (now : Date) (w : World) (ev : Event)
  : option World :=
  match ev with
  | Change value =>
    Some {| seen := w.(seen); ui := onChange w.(ui) value;
            calls := w.(calls) |}
  | KeyPress key =>
    let '(st, effects) := handleKeyPress now w.(seen) key in
    Some {| seen := w.(seen);
            ui := match effects with [] => w.(ui) | _ :: _ => st end;
            calls := w.(calls) ++ started effects |}
  | Settle i reply =>
    match w.(calls) !! i with
    | Some c =>
      Some {| seen := w.(seen);
              ui := executeCommand_settled now
                      (AIService.executeTerminalCommand isTauri reply c)
                      w.(ui);
              calls := delete i w.(calls) |}
    | None => None
    end
  | Render => Some {| seen := w.(ui); ui := w.(ui); calls := w.(calls) |}
  end.

Definition getLineIcon (type : LineType) : jsstring :=
  match type with
  | Command => js "❯"
  | Error => js "❌"
  | Suggestion => js "💡"
  | Output => js ""
  end.

(** The [default] case of the source is out of reach: the four types are
    all there are. *)
Definition getLineColor (type : LineType) : jsstring :=
  match type with
  | Command => js "text-[hsl(var(--accent-primary))]"
  | Output => js "text-[hsl(var(--text-primary))]"
  | Error => js "text-[hsl(var(--accent-error))]"
  | Suggestion => js "text-[hsl(var(--accent-warning))]"
  end.

(** The component as it is mounted. *)
Definition initialWorld (loaded : Date) : World :=
  {| seen := initialState loaded; ui := initialState loaded; calls := [] |}.

End Terminal.

(** ** The earlier terminal, which simulates the assistant *)

Module SimulatedTerminal.
Import Terminal.

Section GetAIResponse.
(** [String.prototype.toLowerCase], a builtin. *)
Variable toLowerCase : jsstring -> jsstring.

Definition getAIResponse (now : Date) (command : jsstring)
  : list TerminalLine :=
  let line t c := {| type := t; content := c; timestamp := Some now |} in
  let cmd := trim (toLowerCase command) in
  if includes cmd (js "install") || includes cmd (js "npm i") then
    [ line Output (js "📦 Installing dependencies...");
      line Output (js "✓ Dependencies installed successfully");
      line Suggestion (js "💡 AI suggests: Run 'npm audit' to check for security vulnerabilities") ]
  else if includes cmd (js "build") then
    [ line Output (js "🔨 Building application...");
      line Output (js "✓ Build completed in 12.3s");
      line Suggestion (js "💡 AI suggests: Your bundle size increased by 15%. Consider code splitting.") ]
  else if includes cmd (js "test") then
    [ line Output (js "🧪 Running tests...");
      line Output (js "✓ 24 tests passed");
      line Error (js "⚠ 2 tests have low coverage");
      line Suggestion (js "💡 AI suggests: Add tests for components/Button.tsx") ]
  else if includes cmd (js "git") && includes cmd (js "commit") then
    [ line Output (js "📝 Committing changes...");
      line Output (js "✓ Committed: feat: add AI-powered terminal interface");
      line Suggestion (js "💡 AI suggests: Consider adding a pre-commit hook for linting") ]
  else if negb (startsWith cmd (js "npm")) && negb (startsWith cmd (js "git"))
          && negb (startsWith cmd (js "yarn")) then
    [ line Output (js "🤖 AI is analyzing your request...");
      line Output (js "I understand you want help with: " ++ command);
      line Suggestion (js "💡 Try: 'npm run dev' to start the development server") ]
  else
    [ line Output (js "Command executed: " ++ command);
      line Suggestion (js "💡 AI suggests: Use 'help' to see available commands") ].

(** A timer set by [executeCommand]; it keeps the command it was set for. *)
Inductive Effect :=
  | SetTimeout (command : jsstring).

Definition executeCommand (now : Date) (st : State) (command : jsstring)
  : State * list Effect :=
  if negb (truthy (trim command)) then (st, [])
  else
    let newHistory :=
      st.(history) ++
      [ {| type := Command; content := command; timestamp := Some now |} ] in
    ( {| history := newHistory; currentCommand := []; isThinking := true |},
      [ SetTimeout command ] ).

(** The timer's callback. *)
Definition executeCommand_timeout (now : Date) (command : jsstring)
    (st : State) : State :=
  let responses := getAIResponse now command in
  {| history := st.(history) ++ responses;
     currentCommand := st.(currentCommand);
     isThinking := false |}.

Definition handleKeyPress (now : Date) (st : State) (key : jsstring)
  : State * list Effect :=
  if bool_decide (key = js "Enter")
  then executeCommand now st st.(currentCommand)
  else (st, []).

(** As for the terminal: the cells, their values at the last render, and
    the timers that have not fired. *)
Record World := {
  seen : State;
  ui : State;
  timers : list jsstring
}.

Inductive Event :=
  | Change (value : jsstring)
  | KeyPress (key : jsstring)
  | Timeout (i : nat)
  | Render.

Definition step (now : Date) (w : World) (ev : Event) : option World :=
  match ev with
  | Change value =>
    Some {| seen := w.(seen); ui := onChange w.(ui) value;
            timers := w.(timers) |}
  | KeyPress key =>
    let '(st, effects) := handleKeyPress now w.(seen) key in
    Some {| seen := w.(seen);
            ui := match effects with [] => w.(ui) | _ :: _ => st end;
            timers := w.(timers)
                      ++ List.map (fun e => match e with SetTimeout c => c end)
                           effects |}
  | Timeout i =>
    match w.(timers) !! i with
    | Some c =>
      Some {| seen := w.(seen);
              ui := executeCommand_timeout now c w.(ui);
              timers := delete i w.(timers) |}
    | None => None
    end
  | Render => Some {| seen := w.(ui); ui := w.(ui); timers := w.(timers) |}
  end.
End GetAIResponse.

Definition initialWorld (loaded : Date) : World :=
  {| seen := initialState loaded; ui := initialState loaded; timers := [] |}.

End SimulatedTerminal.

(** ** components/editor/CodeEditor.tsx *)

Module CodeEditor.
Import TauriApi.

Record State := {
  showSuggestion : bool;
  currentSuggestion : option CompletionResult;
  isLoadingSuggestion : bool;
  code : jsstring
}.

Definition initialCode : jsstring :=
  join [0x0A]
    [ js "import React from 'react';";
      js "";
      js "// ProjectCode - AI-Powered IDE";
      js "export default function App() {";
      js "  return (";
      js "    <div className=" ++ [dquote] ++ js "app" ++ [dquote] ++ js ">";
      js "      <h1>Welcome to ProjectCode</h1>";
      js "      <p>AI-powered development starts here...</p>";
      js "      ";
      js "      {/* Try typing below - TabX will suggest completions */}";
      js "      const handleClick = () => {";
      js "        ";
      js "      };";
      js "    </div>";
      js "  );";
      js "}" ].

Definition initialState : State :=
  {| showSuggestion := false; currentSuggestion := None;
     isLoadingSuggestion := false; code := initialCode |}.

Inductive Effect :=
  | CompleteCode (context : AIContext) (level : CompletionLevel)
  | ConsoleError (label error : jsstring).

Definition context : AIContext :=
  {| project_path := js "/current/project";
     current_file := Some (js "app.tsx");
     selected_text := Some (js "");
     cursor_position := {| line := 10; column := 20 |} |}.

(** [requestAICompletion], up to its [await]. *)
Definition requestAICompletion (st : State) : State * list Effect :=
  ( {| showSuggestion := st.(showSuggestion);
       currentSuggestion := st.(currentSuggestion);
       isLoadingSuggestion := true;
       code := st.(code) |},
    [ CompleteCode context Component ] ).

(** [requestAICompletion] after its [await]: the rest of [try], or [catch],
    then [finally]. *)
Definition requestAICompletion_settled (result : Settled CompletionResult)
    (st : State) : State * list Effect :=
  match result with
  | Resolved result =>
    ( {| showSuggestion := true;
         currentSuggestion := Some result;
         isLoadingSuggestion := false;
         code := st.(code) |}, [] )
  | Rejected error =>
    ( {| showSuggestion := st.(showSuggestion);
         currentSuggestion := st.(currentSuggestion);
         isLoadingSuggestion := false;
         code := st.(code) |},
      [ ConsoleError (js "AI completion failed:") error ] )
  end.

Definition acceptSuggestion (st : State) : State :=
  {| showSuggestion := false;
     currentSuggestion := None;
     isLoadingSuggestion := st.(isLoadingSuggestion);
     code := match st.(currentSuggestion) with
             | Some currentSuggestion =>
               st.(code) ++ [0x0A; 0x0A] ++ js "// AI Generated:" ++ [0x0A]
               ++ currentSuggestion.(TauriApi.code)
             | None => st.(code)
             end |}.

Definition rejectSuggestion (st : State) : State :=
  {| showSuggestion := false;
     currentSuggestion := None;
     isLoadingSuggestion := st.(isLoadingSuggestion);
     code := st.(code) |}.

(** [onChange={(value) => setCode(value || "")}]. *)
Definition onChange (st : State) (value : option jsstring) : State :=
  {| showSuggestion := st.(showSuggestion);
     currentSuggestion := st.(currentSuggestion);
     isLoadingSuggestion := st.(isLoadingSuggestion);
     code := match value with
             | Some v => if truthy v then v else []
             | None => []
             end |}.

(** The callback of the two-second timer of the auto-completion effect. *)
Definition autoCompletion (st : State) : State * list Effect :=
  if includes st.(code) (js "const ") && negb st.(showSuggestion)
     && negb st.(isLoadingSuggestion)
  then requestAICompletion st
  else (st, []).

(** The dependencies of that effect: when one of them changes the pending
    timer is cleared and a new one is set. *)
Definition deps (st : State) : jsstring * bool * bool :=
  (st.(code), st.(showSuggestion), st.(isLoadingSuggestion)).

(** A call of [AIService.completeCode] that has not settled. *)
Record Request := {
  rid : nat;
  request_context : AIContext;
  request_level : CompletionLevel
}.

Record World := {
  ui : State;
  inflight : list Request;
  issued : nat;
  console : list (jsstring * jsstring);
  timer : bool
}.

Definition initialWorld : World :=
  {| ui := initialState; inflight := []; issued := 0%nat; console := [];
     timer := true |}.

Definition perform (w : World) (e : Effect) : World :=
  match e with
  | CompleteCode c l =>
    {| ui := w.(ui);
       inflight := w.(inflight)
                   ++ [ {| rid := w.(issued); request_context := c;
                           request_level := l |} ];
       issued := S w.(issued);
       console := w.(console);
       timer := w.(timer) |}
  | ConsoleError label error =>
    {| ui := w.(ui); inflight := w.(inflight); issued := w.(issued);
       console := w.(console) ++ [(label, error)];
       timer := w.(timer) |}
  end.

(** Commit a handler's result: the new state, its effects, and the timer
    of the auto-completion effect. *)
Definition commit (w : World) (r : State * list Effect) : World :=
  let w' := foldl perform w r.2 in
  {| ui := r.1; inflight := w'.(inflight); issued := w'.(issued);
     console := w'.(console);
     timer := if bool_decide (deps w.(ui) = deps r.1) then w.(timer)
              else true |}.

Inductive Event :=
  | Change (value : option jsstring)
  | TimerFires
  | Settle (n : nat) (reply : Settled CompletionResult)
  | Accept
  | Dismiss.

(** The suggestion panel, with its two buttons, is rendered. *)
Definition panel (st : State) : bool :=
  st.(showSuggestion) && bool_decide (is_Some st.(currentSuggestion)).

Definition without (n : nat) (l : list Request) : list Request :=
  filter (fun r => r.(rid) <> n) l.

Definition step (isTauri : bool) (w : World) (ev : Event) : option World :=
  match ev with
  | Change value => Some (commit w (onChange w.(ui) value, []))
  | TimerFires =>
    if w.(timer)
    then Some (commit {| ui := w.(ui); inflight := w.(inflight);
                         issued := w.(issued); console := w.(console);
                         timer := false |}
                 (autoCompletion w.(ui)))
    else None
  | Settle n reply =>
    match filter (fun r => r.(rid) = n) w.(inflight) with
    | r :: _ =>
      Some (commit {| ui := w.(ui); inflight := without n w.(inflight);
                      issued := w.(issued); console := w.(console);
                      timer := w.(timer) |}
              (requestAICompletion_settled
                 (AIService.completeCode isTauri reply
                    r.(request_context) r.(request_level))
                 w.(ui)))
    | [] => None
    end
  | Accept =>
    if panel w.(ui) then Some (commit w (acceptSuggestion w.(ui), []))
    else None
  | Dismiss =>
    if panel w.(ui) then Some (commit w (rejectSuggestion w.(ui), []))
    else None
  end.

(** The worlds the component can be in. *)
Inductive reachable (isTauri : bool) : World -> Prop :=
  | reachable_initial : reachable isTauri initialWorld
  | reachable_step w ev w' :
      reachable isTauri w -> step isTauri w ev = Some w' ->
      reachable isTauri w'.

(** [requestAICompletion] called as it is, whatever the state. *)
Definition call_requestAICompletion (w : World) : World :=
  commit w (requestAICompletion w.(ui)).

(** The run of one [requestAICompletion] from its call to the end, with
    nothing in between. *)
Definition run_requestAICompletion (isTauri : bool)
    (reply : Settled CompletionResult) (st : State) : State * list Effect :=
  let '(st1, _) := requestAICompletion st in
  requestAICompletion_settled
    (AIService.completeCode isTauri reply context Component) st1.

(** While a request is in flight the loading flag is up, and there is no
    second request. *)
Definition one_inflight (w : World) : Prop :=
  match w.(inflight) with
  | [] => True
  | [_] => w.(ui).(isLoadingSuggestion) = true
  | _ => False
  end.

End CodeEditor.

(** ** components/layout/Sidebar.tsx *)

Module Sidebar.
Import TauriApi.

Inductive Role := user | assistant.

Record Message := { role : Role; content : jsstring }.

Definition chatHistory : list Message :=
  [ {| role := user; content := js "How do I implement AI autocomplete?" |};
    {| role := assistant;
       content := js "I can help you implement TabX autocomplete. Let me show you the pattern..." |} ].

Record State := {
  chatInput : jsstring;
  expandedFolders : list jsstring;
  messages : list Message;
  suggestedFiles : list ProjectFile;
  isLoadingSuggestions : bool
}.

Definition initialState : State :=
  {| chatInput := []; expandedFolders := [js "src"];
     messages := chatHistory; suggestedFiles := [];
     isLoadingSuggestions := false |}.

Inductive Effect :=
  | SetTimeout
  | GetAISuggestedFiles (currentFile projectPath : jsstring)
  | ConsoleError (label error : jsstring).

(** A [Set] keeps insertion order; [delete] removes, [add] appends. *)
Definition toggleFolder (st : State) (folderName : jsstring) : State :=
  {| chatInput := st.(chatInput);
     expandedFolders :=
       if bool_decide (folderName ∈ st.(expandedFolders))
       then filter (fun f => f <> folderName) st.(expandedFolders)
       else st.(expandedFolders) ++ [folderName];
     messages := st.(messages);
     suggestedFiles := st.(suggestedFiles);
     isLoadingSuggestions := st.(isLoadingSuggestions) |}.

Definition onChange (st : State) (value : jsstring) : State :=
  {| chatInput := value;
     expandedFolders := st.(expandedFolders);
     messages := st.(messages);
     suggestedFiles := st.(suggestedFiles);
     isLoadingSuggestions := st.(isLoadingSuggestions) |}.

Definition sendMessage (st : State) : State * list Effect :=
  if negb (truthy (trim st.(chatInput))) then (st, [])
  else
    let newMessages :=
      st.(messages) ++ [ {| role := user; content := st.(chatInput) |} ] in
    ( {| chatInput := [];
         expandedFolders := st.(expandedFolders);
         messages := newMessages;
         suggestedFiles := st.(suggestedFiles);
         isLoadingSuggestions := st.(isLoadingSuggestions) |},
      [ SetTimeout ] ).

(** The callback of the timer [sendMessage] sets. *)
Definition sendMessage_timeout (st : State) : State :=
  {| chatInput := st.(chatInput);
     expandedFolders := st.(expandedFolders);
     messages :=
       st.(messages) ++
       [ {| role := assistant;
            content := js "I understand your request. Let me help you with that..." |} ];
     suggestedFiles := st.(suggestedFiles);
     isLoadingSuggestions := st.(isLoadingSuggestions) |}.





#[global] Instance Role_eq_dec : EqDecision Role.
Proof. solve_decision. Defined.

End Sidebar.

(** ** The earlier sidebar, which answers at once *)

Module StaticSidebar.

Import Sidebar.

Record State := {
  chatInput : jsstring;
  expandedFolders : list jsstring;
  messages : list Message
}.

Definition sendMessage (st : State) : State :=
  if negb (truthy (trim st.(chatInput))) then st
  else
    let newMessages :=
      st.(messages) ++
      [ {| role := user; content := st.(chatInput) |};
        {| role := assistant;
           content := js "I understand your request. Let me help you with that..." |} ] in
    {| chatInput := []; expandedFolders := st.(expandedFolders);
       messages := newMessages |}.

Definition initialState : State :=
  {| chatInput := []; expandedFolders := [js "src"];
     messages := chatHistory |}.

Definition onChange (st : State) (value : jsstring) : State :=
  {| chatInput := value; expandedFolders := st.(expandedFolders);
     messages := st.(messages) |}.

Definition toggleFolder (st : State) (folderName : jsstring) : State :=
  {| chatInput := st.(chatInput);
     expandedFolders :=
       if bool_decide (folderName ∈ st.(expandedFolders))
       then filter (fun f => f <> folderName) st.(expandedFolders)
       else st.(expandedFolders) ++ [folderName];
     messages := st.(messages) |}.

Definition handleKeyPress (st : State) (key : jsstring) (shiftKey : bool)
  : State :=
  if bool_decide (key = js "Enter") && negb shiftKey
  then sendMessage st
  else st.

Inductive Event :=
  | Change (value : jsstring)
  | KeyPress (key : jsstring) (shiftKey : bool)
  | Click
  | Toggle (folderName : jsstring).

Definition step (st : State) (ev : Event) : option State :=
  match ev with
  | Change value => Some (onChange st value)
  | KeyPress key shiftKey => Some (handleKeyPress st key shiftKey)
  | Click =>
    if truthy (trim st.(chatInput)) then Some (sendMessage st) else None
  | Toggle folderName => Some (toggleFolder st folderName)
  end.

Inductive reachable : State -> Prop :=
  | reachable_initial : reachable initialState
  | reachable_step st ev st' :
      reachable st -> step st ev = Some st' -> reachable st'.


End StaticSidebar.

(** ** The embedding index of the design documents

    [CodeIndexer] and [VectorDB] exist as sketches only (Docs/): the table
    [code_embeddings] with its primary key, [store_embedding]
    ([INSERT OR REPLACE]), [search_similar] and [updateIndex]. The parser, the
    embedding model and the similarity of the database are taken as given. *)

#[global] Instance Qle_decision (x y : Q) : Decision (x <= y)%Q :=
  decide (Qnum x * QDen y ≤ Qnum y * QDen x)%Z.
#[global] Instance Qlt_decision (x y : Q) : Decision (x < y)%Q :=
  decide (Qnum x * QDen y < Qnum y * QDen x)%Z.

Module CodeIndex.

Record CodeBlock := {
  text : jsstring;
  startLine : Z;
  endLine : Z;
  type : jsstring;
  imports : list jsstring
}.

Record FileChange := { filePath : jsstring; newContent : jsstring }.

(** [`${file.path}:${block.startLine}`], the id [indexCodebase] gives a
    block. *)
Definition lineId (path : jsstring) (block : CodeBlock) : jsstring :=
  path ++ js ":"
  ++ js (DecimalString.NilZero.string_of_int (Z.to_int block.(startLine))).

Section Engine.
Context {Vector : Type}.
(** The language of a file; the parser followed by
    [extractSemanticBlocks], by language and content; the embedding
    model; the id of a block; [array_cosine_similarity]. *)
Variable languageOf : jsstring -> jsstring.
Variable extractSemanticBlocks : jsstring -> jsstring -> list CodeBlock.
Variable embed : jsstring -> Vector.
Variable blockId : jsstring -> CodeBlock -> jsstring.
Variable array_cosine_similarity : Vector -> Vector -> Q.

(** A row of [code_embeddings] without its key [id]: the table is a map
    from the key to the rest of the row. *)
Record Row := {
  file_path : jsstring;
  start_line : Z;
  end_line : Z;
  code_type : jsstring;
  language : jsstring;
  content : jsstring;
  embedding : Vector;
  dependencies : list jsstring
}.

(** [INSERT OR REPLACE INTO code_embeddings]. *)
Definition store_embedding (id : jsstring) (row : Row)
    (table : gmap jsstring Row) : gmap jsstring Row :=
  <[id := row]> table.

(** Modelled from the spec: [upsert(blockId, vector, metadata)] and
    [remove(blockId)] of the vector store, of which the documents give
    the insertion only. [upsert] replaces the entry of the id, [remove]
    deletes it. *)
Definition upsert (id : jsstring) (row : Row)
    (table : gmap jsstring Row) : gmap jsstring Row :=
  store_embedding id row table.

Definition remove (id : jsstring) (table : gmap jsstring Row)
  : gmap jsstring Row :=
  delete id table.

(** Modelled from the spec: [removeFileFromIndex], called by
    [updateIndex] and not given: the stale entries of the file are
    removed before the new ones are inserted. *)
Definition removeFileFromIndex (path : jsstring)
    (table : gmap jsstring Row) : gmap jsstring Row :=
  filter (fun kr => kr.2.(file_path) <> path) table.

(** The rows of a file, block by block, as the loop of [indexCodebase]
    stores them. *)
Definition rowsOf (path content : jsstring) : list (jsstring * Row) :=
  List.map
    (fun block =>
       ( blockId path block,
         {| file_path := path;
            start_line := block.(startLine);
            end_line := block.(endLine);
            code_type := block.(type);
            language := languageOf path;
            content := block.(text);
            embedding := embed block.(text);
            dependencies := block.(imports) |} ))
    (extractSemanticBlocks (languageOf path) content).

Definition indexFile (path content : jsstring)
    (table : gmap jsstring Row) : gmap jsstring Row :=
  foldl (fun t kr => store_embedding kr.1 kr.2 t) table
    (rowsOf path content).

Definition updateIndex (changedFiles : list FileChange)
    (table : gmap jsstring Row) : gmap jsstring Row :=
  foldl
    (fun t change =>
       indexFile change.(filePath) change.(newContent)
         (removeFileFromIndex change.(filePath) t))
    table changedFiles.

Record SearchResult := {
  id : jsstring;
  row : Row;
  similarity : Q
}.

(** [SELECT ..., array_cosine_similarity(embedding, ?1) as similarity
    FROM code_embeddings]. *)
Definition scored (query_embedding : Vector) (table : gmap jsstring Row)
  : list SearchResult :=
  List.map
    (fun kr =>
       {| id := kr.1; row := kr.2;
          similarity :=
            array_cosine_similarity kr.2.(embedding) query_embedding |})
    (map_to_list table).

(** [ORDER BY similarity DESC]. *)
Definition descending (a b : SearchResult) : Prop :=
  (b.(similarity) <= a.(similarity))%Q.

(** Modelled from the spec: [query(vector, k, filter)], the [k] most
    similar entries among those the filter keeps, by descending
    similarity. *)
Definition query (vector : Vector) (k : nat) (keep : SearchResult -> bool)
    (table : gmap jsstring Row) : list SearchResult :=
  take k
    (merge_sort descending
       (filter (fun r => keep r = true) (scored vector table))).

(** [VectorDB::search_similar]: [ORDER BY similarity DESC LIMIT ?2]. *)
Definition search_similar (query_embedding : Vector) (limit : nat)
    (table : gmap jsstring Row) : list SearchResult :=
  take limit (merge_sort descending (scored query_embedding table)).

(** The core embedding query pattern:
    [WHERE similarity > 0.6 ORDER BY similarity DESC LIMIT 10]. *)
Definition core_embedding_query (query_embedding : Vector)
    (table : gmap jsstring Row) : list SearchResult :=
  take 10
    (merge_sort descending
       (filter (fun r => (6 # 10 < r.(similarity))%Q)
          (scored query_embedding table))).
End Engine.

End CodeIndex.


Inductive simulated_terminal_run (toLowerCase : jsstring -> jsstring)
  : SimulatedTerminal.World -> SimulatedTerminal.World -> Prop :=
  | simulated_terminal_run_nil w : simulated_terminal_run toLowerCase w w
  | simulated_terminal_run_step w now ev w' w'' :
      SimulatedTerminal.step toLowerCase now w ev = Some w' ->
      simulated_terminal_run toLowerCase w' w'' ->
      simulated_terminal_run toLowerCase w w''.

(** The same, computed: the events in order, each with its time. *)
Fixpoint terminal_play (isTauri : bool)
    (events : list (Date * Terminal.Event)) (w : Terminal.World)
  : option Terminal.World :=
  match events with
  | [] => Some w
  | (now, ev) :: rest =>
    match Terminal.step isTauri now w ev with
    | Some w' => terminal_play isTauri rest w'
    | None => None
    end
  end.

Fixpoint simulated_terminal_play (toLowerCase : jsstring -> jsstring)
    (events : list (Date * SimulatedTerminal.Event))
    (w : SimulatedTerminal.World) : option SimulatedTerminal.World :=
  match events with
  | [] => Some w
  | (now, ev) :: rest =>
    match SimulatedTerminal.step toLowerCase now w ev with
    | Some w' => simulated_terminal_play toLowerCase rest w'
    | None => None
    end
  end.

(** [0 <= c <= 1] on binary64 numbers. *)
Definition in_unit_interval (c : float) : bool :=
  (PrimFloat.leb 0 c && PrimFloat.leb c 1)%bool.

(** What the two overlays of the editor obey: the suggestion panel has a
    suggestion to show, a hidden panel has none, the loading overlay has a
    request in flight, and a shown suggestion excludes the loading overlay. *)
Definition overlays_agree (w : CodeEditor.World) : Prop :=
  (w.(CodeEditor.ui).(CodeEditor.showSuggestion) = true ->
   is_Some w.(CodeEditor.ui).(CodeEditor.currentSuggestion))
  /\ (w.(CodeEditor.ui).(CodeEditor.showSuggestion) = false ->
      w.(CodeEditor.ui).(CodeEditor.currentSuggestion) = None)
  /\ (w.(CodeEditor.ui).(CodeEditor.isLoadingSuggestion) = true ->
      w.(CodeEditor.inflight) <> [])
  /\ (w.(CodeEditor.ui).(CodeEditor.showSuggestion) = true ->
      w.(CodeEditor.ui).(CodeEditor.isLoadingSuggestion) = false).

(** ** Sample inputs *)

Module Sample.
Import TauriApi.

(** A result a backend may send: a confidence above one. *)
Definition overconfident : CompletionResult :=
  {| id := js "7"; level := Line; confidence := 1.5%float;
     code := js "b;"; language := js "typescript"; alternatives := [] |}.

(** The editor after [requestAICompletion] was called once, and twice. *)
Definition oneRequest : CodeEditor.World :=
  CodeEditor.call_requestAICompletion CodeEditor.initialWorld.

Definition twoRequests : CodeEditor.World :=
  CodeEditor.call_requestAICompletion oneRequest.

Definition unavailable : jsstring := js "backend unavailable".

(** The result of the first of two requests. *)
Definition resultA : CompletionResult :=
  {| id := js "A"; level := Component; confidence := 0.5%float;
     code := js "return a + b;"; language := js "typescript";
     alternatives := [] |}.

Definition requestA : CodeEditor.Request :=
  {| CodeEditor.rid := 0; CodeEditor.request_context := CodeEditor.context;
     CodeEditor.request_level := Component |}.

Definition requestB : CodeEditor.Request :=
  {| CodeEditor.rid := 1; CodeEditor.request_context := CodeEditor.context;
     CodeEditor.request_level := Component |}.

(** The editor showing [resultA]. *)
Definition showingA : CodeEditor.State :=
  {| CodeEditor.showSuggestion := true;
     CodeEditor.currentSuggestion := Some resultA;
     CodeEditor.isLoadingSuggestion := false;
     CodeEditor.code := CodeEditor.initialCode |}.

(** [twoRequests] once the first request was fulfilled with [resultA]. *)
Definition afterA : CodeEditor.World :=
  {| CodeEditor.ui := showingA; CodeEditor.inflight := [requestB];
     CodeEditor.issued := 2; CodeEditor.console := [];
     CodeEditor.timer := true |}.

(** [oneRequestQuiet] once its request was fulfilled with [resultA]. *)
Definition shownA : CodeEditor.World :=
  {| CodeEditor.ui := showingA; CodeEditor.inflight := [];
     CodeEditor.issued := 1; CodeEditor.console := [];
     CodeEditor.timer := true |}.

(** [oneRequest] once its timer has fired. *)
Definition oneRequestQuiet : CodeEditor.World :=
  {| CodeEditor.ui := CodeEditor.ui oneRequest;
     CodeEditor.inflight := [requestA];
     CodeEditor.issued := 1; CodeEditor.console := [];
     CodeEditor.timer := false |}.

(** A session of the terminal inside Tauri: [ls] is typed and entered at
    time 5, [pwd] is typed while the call is out, the backend answers at
    time 6, and Enter is pressed at time 7 before the answer is rendered. *)
Definition lsLine : Terminal.TerminalLine :=
  {| Terminal.type := Terminal.Command; Terminal.content := js "ls";
     Terminal.timestamp := Some 5%Z |}.

Definition lsOutput : Terminal.TerminalLine :=
  {| Terminal.type := Terminal.Output; Terminal.content := js "a.txt";
     Terminal.timestamp := Some 6%Z |}.

Definition pwdLine : Terminal.TerminalLine :=
  {| Terminal.type := Terminal.Command; Terminal.content := js "pwd";
     Terminal.timestamp := Some 7%Z |}.

Definition lsResponse : TerminalResponse :=
  {| success := true; output := js "a.txt"; error := None;
     suggestions := [] |}.

Definition untilAnswer : list (Date * Terminal.Event) :=
  [ (1%Z, Terminal.Change (js "ls")); (2%Z, Terminal.Render);
    (5%Z, Terminal.KeyPress (js "Enter")); (5%Z, Terminal.Render);
    (5%Z, Terminal.Change (js "pwd")); (5%Z, Terminal.Render);
    (6%Z, Terminal.Settle 0 (Resolved lsResponse)) ].

(** The terminal after [untilAnswer]: the answer is in the history, the
    last render does not show it yet. *)
Definition lsAnswered : Terminal.World :=
  {| Terminal.seen :=
       {| Terminal.history := Terminal.initialHistory 0 ++ [lsLine];
          Terminal.currentCommand := js "pwd";
          Terminal.isThinking := true |};
     Terminal.ui :=
       {| Terminal.history :=
            Terminal.initialHistory 0 ++ [lsLine; lsOutput];
          Terminal.currentCommand := js "pwd";
          Terminal.isThinking := false |};
     Terminal.calls := [] |}.

(** And after Enter at time 7. *)
Definition pwdSubmitted : Terminal.World :=
  {| Terminal.seen := Terminal.seen lsAnswered;
     Terminal.ui :=
       {| Terminal.history := Terminal.initialHistory 0 ++ [lsLine; pwdLine];
          Terminal.currentCommand := [];
          Terminal.isThinking := true |};
     Terminal.calls :=
       [ {| command := js "pwd"; args := [];
            working_dir := js "/current/project" |} ] |}.

(** The same session of the simulated terminal, whose timer fires at
    time 6. *)
Definition untilResponse : list (Date * SimulatedTerminal.Event) :=
  [ (1%Z, SimulatedTerminal.Change (js "ls")); (2%Z, SimulatedTerminal.Render);
    (5%Z, SimulatedTerminal.KeyPress (js "Enter"));
    (5%Z, SimulatedTerminal.Render);
    (5%Z, SimulatedTerminal.Change (js "pwd"));
    (5%Z, SimulatedTerminal.Render);
    (6%Z, SimulatedTerminal.Timeout 0) ].

(** The terminal of [lsAnswered] with the answer rendered. *)
Definition lsShown : Terminal.World :=
  {| Terminal.seen := Terminal.ui lsAnswered;
     Terminal.ui := Terminal.ui lsAnswered;
     Terminal.calls := [] |}.

(** Two spaces and a tab. *)
Definition blank : jsstring := [0x20; 0x20; 0x09].

(** A toy engine: the whole file is one block, its embedding is its
    length, and two embeddings are the more similar the closer they are. *)
Definition wholeFile (language content : jsstring)
  : list CodeIndex.CodeBlock :=
  [ {| CodeIndex.text := content; CodeIndex.startLine := 1;
       CodeIndex.endLine := 1; CodeIndex.type := js "module";
       CodeIndex.imports := [] |} ].

Definition textLength (text : jsstring) : Q :=
  inject_Z (Z.of_nat (length text)).

Definition closeness (a b : Q) : Q := (- ((a - b) * (a - b)))%Q.

Definition reindex (path content : jsstring)
  : gmap jsstring (@CodeIndex.Row Q) -> gmap jsstring (@CodeIndex.Row Q) :=
  CodeIndex.updateIndex (fun _ => js "typescript") wholeFile textLength
    CodeIndex.lineId
    [ {| CodeIndex.filePath := path; CodeIndex.newContent := content |} ].

Definition threeFiles : gmap jsstring (@CodeIndex.Row Q) :=
  reindex (js "c.ts") (js "abcdef")
    (reindex (js "b.ts") (js "abc") (reindex (js "a.ts") (js "a") ∅)).

(** [shownA] once the suggestion was dismissed. *)
Definition dismissedA : CodeEditor.World :=
  {| CodeEditor.ui := CodeEditor.initialState; CodeEditor.inflight := [];
     CodeEditor.issued := 1; CodeEditor.console := [];
     CodeEditor.timer := true |}.

(** The terminal with [ls] typed and rendered. *)
Definition lsTyped : Terminal.World :=
  {| Terminal.seen :=
       {| Terminal.history := Terminal.initialHistory 0;
          Terminal.currentCommand := js "ls";
          Terminal.isThinking := false |};
     Terminal.ui :=
       {| Terminal.history := Terminal.initialHistory 0;
          Terminal.currentCommand := js "ls";
          Terminal.isThinking := false |};
     Terminal.calls := [] |}.

(** [lsShown] after Enter at time 7. *)
Definition pwdKept : Terminal.World :=
  {| Terminal.seen := Terminal.ui lsAnswered;
     Terminal.ui :=
       {| Terminal.history :=
            Terminal.initialHistory 0 ++ [lsLine; lsOutput; pwdLine];
          Terminal.currentCommand := [];
          Terminal.isThinking := true |};
     Terminal.calls :=
       [ {| command := js "pwd"; args := [];
            working_dir := js "/current/project" |} ] |}.



(** The row of the test of the vector store in the implementation guide,
    in the toy engine. *)
Definition test_1 : @CodeIndex.Row Q :=
  {| CodeIndex.file_path := js "src/main.rs"; CodeIndex.start_line := 1;
     CodeIndex.end_line := 10; CodeIndex.code_type := js "function";
     CodeIndex.language := js "rust";
     CodeIndex.content := js "fn main() { }";
     CodeIndex.embedding := 1 # 10; CodeIndex.dependencies := [] |}.
End Sample.

(** * Properties *)

(** ** Strings *)

Section StringFacts.

Lemma trimStart_whitespace_only s :
  whitespace_only s = true -> trimStart s = [].
Proof.
  induction s as [|c r IH]; simpl; [done|].
  intros [Hc Hr]%andb_prop. rewrite Hc. auto.
Qed.

Lemma trimStart_nil_inv s : trimStart s = [] -> whitespace_only s = true.
Proof.
  induction s as [|c r IH]; simpl; [done|].
  destruct (isWhiteSpace c); [auto | discriminate].
Qed.

Lemma trim_whitespace_only s : whitespace_only s = true -> trim s = [].
Proof.
  intros H. unfold trim, trimEnd.
  rewrite (trimStart_whitespace_only s H). reflexivity.
Qed.

Lemma whitespace_only_app s t :
  whitespace_only (s ++ t) = (whitespace_only s && whitespace_only t)%bool.
Proof. apply forallb_app. Qed.

Lemma whitespace_only_rev s : whitespace_only (rev s) = whitespace_only s.
Proof.
  induction s as [|c r IH]; simpl; [done|].
  rewrite whitespace_only_app, IH. simpl.
  rewrite andb_true_r. apply andb_comm.
Qed.

(** A string that does not start with white space is not emptied by
    [trimStart]; one that is not all white space is not emptied by [trim]. *)
Lemma trim_nil_inv s : trim s = [] -> whitespace_only s = true.
Proof.
  unfold trim, trimEnd. intros H.
  assert (Hr : trimStart (rev (trimStart s)) = []).
  { apply (f_equal (@rev N)) in H. by rewrite rev_involutive in H. }
  apply trimStart_nil_inv in Hr. rewrite whitespace_only_rev in Hr.
  destruct s as [|c r]; [done|]. simpl in *.
  destruct (isWhiteSpace c) eqn:Hc.
  - simpl. clear Hc c. induction r as [|c r IH]; simpl in *; [done|].
    destruct (isWhiteSpace c) eqn:Hc; simpl; [auto|].
    simpl in Hr. by rewrite Hc in Hr.
  - simpl in Hr. by rewrite Hc in Hr.
Qed.

Lemma blank_iff s : negb (truthy (trim s)) = true <-> whitespace_only s = true.
Proof.
  split.
  - intros H. apply trim_nil_inv. by destruct (trim s).
  - intros H. by rewrite trim_whitespace_only.
Qed.

End StringFacts.

Example js_ascii : js "ab c" = [97; 98; 32; 99].
Proof. reflexivity. Qed.

Example js_emoji : js "💡" = [0xD83D; 0xDCA1].
Proof. reflexivity. Qed.

Example js_check_mark : js "✓" = [0x2713].
Proof. reflexivity. Qed.

Example trim_both_ends : trim (js "  npm  test ") = js "npm  test".
Proof. reflexivity. Qed.

Example trim_no_break_space : trim [0xA0; 0x09; 0x3000] = [].
Proof. reflexivity. Qed.

Example split_keeps_empty_parts :
  split 0x20 (js "npm  run dev") = [js "npm"; js ""; js "run"; js "dev"].
Proof. reflexivity. Qed.

Example buttonCode_length : length TauriApi.buttonCode = 190%nat.
Proof. reflexivity. Qed.

Example initialCode_triggers :
  includes CodeEditor.initialCode (js "const ") = true.
Proof. reflexivity. Qed.

(** ** The AI service *)

Section ServiceFacts.
Import TauriApi.

(** C10. [MockAIService.completeCode] does not look at its context: two
    calls for the same level return the same result, whose fields are the
    fixed ones (id 1, the level asked for, confidence 0.92, the Button
    code, typescript, the two alternatives); so does [AIService] outside
    Tauri, whatever a backend would have answered. *)
Theorem mock_completeCode_ignores_context
    (c1 c2 : AIContext) (level : CompletionLevel) :
  MockAIService.completeCode c1 level = MockAIService.completeCode c2 level
  /\ (exists r,
        MockAIService.completeCode c1 level = Resolved r
        /\ r.(id) = js "1" /\ r.(TauriApi.level) = level
        /\ r.(confidence) = 0.92%float
        /\ r.(code) = buttonCode
        /\ r.(language) = js "typescript"
        /\ r.(alternatives) = [js "Styled components variant";
                               js "CSS modules variant"])
  /\ (forall reply1 reply2,
        AIService.completeCode false reply1 c1 level
        = AIService.completeCode false reply2 c2 level).
Proof.
  split; [reflexivity|]. split; [|reflexivity].
  eexists. split; [reflexivity|]. repeat split.
Qed.

(** C1, as stated, fails: inside Tauri the service hands on the backend's
    result as it is. A result with confidence 1.5 is returned, and shown by
    the editor, with confidence 1.5. *)
Lemma tauri_confidence_is_not_clipped :
  AIService.completeCode true (Resolved Sample.overconfident)
    CodeEditor.context Component = Resolved Sample.overconfident
  /\ (CodeEditor.run_requestAICompletion true (Resolved Sample.overconfident)
        CodeEditor.initialState).1.(CodeEditor.currentSuggestion)
     = Some Sample.overconfident
  /\ Sample.overconfident.(confidence) = 1.5%float
  /\ in_unit_interval Sample.overconfident.(confidence) = false.
Proof. repeat split. Qed.

(** C1, amended. The mock service returns confidence 0.92, which lies in
    [0,1], for every context and level. The Tauri service returns the
    backend's result unchanged, and the editor shows the result it gets
    unchanged: nothing on the way clips the confidence. *)
Theorem delivered_confidence
    (isTauri : bool) (reply : Settled CompletionResult)
    (context : AIContext) (level : CompletionLevel)
    (r : CompletionResult) (st : CodeEditor.State) :
  AIService.completeCode isTauri reply context level = Resolved r ->
  (if isTauri then reply = Resolved r
   else r.(confidence) = 0.92%float
        /\ in_unit_interval r.(confidence) = true)
  /\ (CodeEditor.requestAICompletion_settled (Resolved r) st).1
       .(CodeEditor.currentSuggestion) = Some r.
Proof.
  intros H. split; [|reflexivity].
  destruct isTauri; simpl in H; [exact H|].
  inversion H; subst; simpl. split; reflexivity.
Qed.

Lemma delivered_confidence_witness :
  AIService.completeCode false (Rejected Sample.unavailable)
    CodeEditor.context Feature
  = Resolved (MockAIService.completion Feature)
  /\ ((MockAIService.completion Feature).(confidence) = 0.92%float
      /\ in_unit_interval (MockAIService.completion Feature).(confidence)
         = true)
     /\ (CodeEditor.requestAICompletion_settled
           (Resolved (MockAIService.completion Feature))
           CodeEditor.initialState).1.(CodeEditor.currentSuggestion)
        = Some (MockAIService.completion Feature).
Proof.
  split; [reflexivity|].
  apply (delivered_confidence false (Rejected Sample.unavailable)
           CodeEditor.context Feature (MockAIService.completion Feature)
           CodeEditor.initialState).
  reflexivity.
Defined.

End ServiceFacts.

(** ** The editor and its completion requests *)

Section EditorFacts.
Import TauriApi CodeEditor.

(** Case analysis on an event that could happen: one goal for each event,
    with the next world replaced by what [step] computes. *)
Ltac step_cases Hstep :=
  match type of Hstep with
  | step _ ?w ?ev = Some _ =>
    destruct ev as [value| |n reply| |]; simpl in Hstep;
    [ | destruct (timer w); [|discriminate Hstep]
      | destruct (filter _ (inflight w)) as [|r l] eqn:E;
        [discriminate Hstep|]
      | destruct (panel (ui w)); [|discriminate Hstep]
      | destruct (panel (ui w)); [|discriminate Hstep] ];
    injection Hstep as <-
  end.

Lemma autoCompletion_cases st :
  (autoCompletion st = requestAICompletion st
   /\ st.(isLoadingSuggestion) = false /\ st.(showSuggestion) = false)
  \/ autoCompletion st = (st, []).
Proof.
  unfold autoCompletion.
  destruct (includes _ _), (showSuggestion st) eqn:Hs,
    (isLoadingSuggestion st) eqn:Hl; simpl; auto.
Qed.

Lemma settled_inflight w result st :
  (commit w (requestAICompletion_settled result st)).(inflight)
  = w.(inflight)
  /\ (commit w (requestAICompletion_settled result st)).(issued)
     = w.(issued).
Proof. destruct result; split; reflexivity. Qed.

Lemma step_one_inflight isTauri w ev w' :
  one_inflight w -> step isTauri w ev = Some w' -> one_inflight w'.
Proof.
  unfold one_inflight. intros Hinv Hstep. step_cases Hstep;
    try exact Hinv.
  - destruct (autoCompletion_cases (ui w)) as [(-> & Hl & _)| ->];
      [|exact Hinv].
    destruct (inflight w) as [|r [|r' l]] eqn:Ew; simpl; rewrite ?Ew; simpl;
      [reflexivity | congruence | exact Hinv].
  - destruct (inflight w) as [|r0 [|r1 l0]] eqn:Ew; [discriminate| |done].
    rewrite (proj1 (settled_inflight _ _ _)). simpl.
    unfold without. rewrite filter_cons in E |- *. rewrite filter_nil in *.
    destruct (decide (rid r0 = n)) as [Heq|Hne]; [|discriminate].
    rewrite decide_False by (intros H; by apply H). exact I.
Qed.

Lemma reachable_one_inflight isTauri w :
  reachable isTauri w -> one_inflight w.
Proof.
  induction 1 as [|w ev w' _ IH Hstep]; [exact I|].
  eauto using step_one_inflight.
Qed.

Lemma one_inflight_length w : one_inflight w -> (length w.(inflight) <= 1)%nat.
Proof.
  unfold one_inflight. destruct (inflight w) as [|r [|r' l]]; simpl; lia.
Qed.

Lemma one_inflight_loading w :
  one_inflight w -> w.(inflight) <> [] ->
  w.(ui).(isLoadingSuggestion) = true.
Proof.
  unfold one_inflight. destruct (inflight w) as [|r [|r' l]]; done.
Qed.

Lemma step_same_target isTauri w ev w' :
  Forall (fun r => r.(request_context) = context
                   /\ r.(request_level) = Component) w.(inflight) ->
  step isTauri w ev = Some w' ->
  Forall (fun r => r.(request_context) = context
                   /\ r.(request_level) = Component) w'.(inflight).
Proof.
  intros Hall Hstep. step_cases Hstep; try exact Hall.
  - destruct (autoCompletion_cases (ui w)) as [(-> & _)| ->]; simpl;
      [|exact Hall].
    apply Forall_app. split; [exact Hall|]. by repeat constructor.
  - rewrite (proj1 (settled_inflight _ _ _)). simpl.
    rewrite Forall_forall in Hall |- *. intros x Hx.
    apply list_elem_of_filter in Hx as [_ Hx]. by apply Hall.
Qed.

Lemma reachable_same_target isTauri w :
  reachable isTauri w ->
  Forall (fun r => r.(request_context) = context
                   /\ r.(request_level) = Component) w.(inflight).
Proof.
  induction 1 as [|w ev w' _ IH Hstep]; [constructor|].
  eauto using step_same_target.
Qed.

Lemma autoCompletion_loading st :
  st.(isLoadingSuggestion) = true -> autoCompletion st = (st, []).
Proof.
  intros H. unfold autoCompletion. rewrite H.
  by rewrite andb_false_r.
Qed.

(** C4, as stated, fails on "replaces": with request 0 in flight (a
    reachable state) the trigger fires, and afterwards request 0 is still
    the one in flight and no request was issued; and
    [requestAICompletion] itself, called with one request in flight,
    leaves two. *)
Lemma pending_request_is_kept_not_replaced :
  step true initialWorld TimerFires = Some Sample.oneRequest
  /\ Sample.oneRequest.(inflight) = [Sample.requestA]
  /\ step true Sample.oneRequest TimerFires = Some Sample.oneRequestQuiet
  /\ Sample.oneRequestQuiet.(inflight) = [Sample.requestA]
  /\ Sample.oneRequestQuiet.(issued) = Sample.oneRequest.(issued)
  /\ (call_requestAICompletion Sample.oneRequest).(inflight)
     = [Sample.requestA; Sample.requestB].
Proof. repeat split. Qed.

(** C4, amended. In every reachable state of the editor at most one
    completion request is in flight (every request being for app.tsx at
    level Component); while one is, the trigger issues no request and
    changes nothing: the pending request is kept, the new one is dropped,
    neither queued nor put in its place. *)
Theorem at_most_one_completion_in_flight (isTauri : bool) (w : World) :
  reachable isTauri w ->
  (length w.(inflight) <= 1)%nat
  /\ (forall r, r ∈ w.(inflight) ->
        r.(request_context).(current_file) = Some (js "app.tsx")
        /\ r.(request_level) = Component)
  /\ (forall w',
        w.(inflight) <> [] -> step isTauri w TimerFires = Some w' ->
        w'.(inflight) = w.(inflight) /\ w'.(issued) = w.(issued)
        /\ w'.(ui) = w.(ui)).
Proof.
  intros Hr. pose proof (reachable_one_inflight _ _ Hr) as Hinv.
  split; [by apply one_inflight_length|].
  split.
  { intros r Hin. pose proof (reachable_same_target _ _ Hr) as Hall.
    rewrite Forall_forall in Hall. destruct (Hall r Hin) as [-> ->].
    by split. }
  intros w' Hne Hstep. simpl in Hstep.
  destruct (timer w); [|discriminate].
  rewrite autoCompletion_loading in Hstep
    by (by apply one_inflight_loading).
  inversion Hstep; subst; clear Hstep. repeat split.
Qed.

Lemma at_most_one_completion_in_flight_witness :
  reachable true Sample.oneRequest
  /\ (length Sample.oneRequest.(inflight) <= 1)%nat
     /\ (forall r, r ∈ Sample.oneRequest.(inflight) ->
           r.(request_context).(current_file) = Some (js "app.tsx")
           /\ r.(request_level) = Component)
     /\ (forall w',
           Sample.oneRequest.(inflight) <> [] ->
           step true Sample.oneRequest TimerFires = Some w' ->
           w'.(inflight) = Sample.oneRequest.(inflight)
           /\ w'.(issued) = Sample.oneRequest.(issued)
           /\ w'.(ui) = Sample.oneRequest.(ui)).
Proof.
  assert (Hr : reachable true Sample.oneRequest).
  { apply (reachable_step true initialWorld TimerFires Sample.oneRequest);
      [apply reachable_initial | reflexivity]. }
  split; [exact Hr|].
  apply (at_most_one_completion_in_flight true Sample.oneRequest Hr).
Defined.

(** C3, as stated, fails, in a run of the component: the timer fires and
    request 0 is issued for app.tsx at level Component; the timer fires
    again, the code still asking for a completion, while request 0 is
    pending; nothing supersedes request 0, and when it is fulfilled its
    result is shown. *)
Lemma pending_result_is_shown_after_second_trigger :
  step true initialWorld TimerFires = Some Sample.oneRequest
  /\ Sample.oneRequest.(inflight) = [Sample.requestA]
  /\ includes Sample.oneRequest.(ui).(code) (js "const ") = true
  /\ step true Sample.oneRequest TimerFires = Some Sample.oneRequestQuiet
  /\ Sample.oneRequestQuiet.(inflight) = [Sample.requestA]
  /\ step true Sample.oneRequestQuiet (Settle 0 (Resolved Sample.resultA))
     = Some Sample.shownA
  /\ Sample.shownA.(ui).(currentSuggestion) = Some Sample.resultA
  /\ Sample.shownA.(ui).(showSuggestion) = true.
Proof. repeat split. Qed.

(** What the service makes of the settled call, shown by the editor. *)
Lemma settle_delivers isTauri w n reply w' :
  step isTauri w (Settle n reply) = Some w' ->
  exists req,
    req ∈ w.(inflight) /\ req.(rid) = n
    /\ match AIService.completeCode isTauri reply req.(request_context)
             req.(request_level) with
       | Resolved r =>
         w'.(ui).(currentSuggestion) = Some r
         /\ w'.(ui).(showSuggestion) = true
         /\ w'.(console) = w.(console)
       | Rejected e =>
         w'.(ui).(currentSuggestion) = w.(ui).(currentSuggestion)
         /\ w'.(ui).(showSuggestion) = w.(ui).(showSuggestion)
         /\ w'.(console)
            = w.(console) ++ [(js "AI completion failed:", e)]
       end.
Proof.
  simpl. intros Hstep.
  destruct (filter _ (inflight w)) as [|req l] eqn:E; [discriminate|].
  assert (Hin : req ∈ filter (fun r => rid r = n) (inflight w))
    by (rewrite E; left).
  apply list_elem_of_filter in Hin as [Hn Hin].
  exists req. split; [exact Hin|]. split; [exact Hn|].
  inversion Hstep; subst; clear Hstep.
  destruct (AIService.completeCode _ _ _ _); repeat split.
Qed.

Lemma step_issues_nothing_while_pending isTauri w ev w' :
  one_inflight w -> w.(inflight) <> [] ->
  step isTauri w ev = Some w' -> w'.(issued) = w.(issued).
Proof.
  intros Hinv Hne Hstep. step_cases Hstep; try reflexivity.
  - by rewrite autoCompletion_loading by (by apply one_inflight_loading).
  - by rewrite (proj2 (settled_inflight _ _ _)).
Qed.

(** C3, amended. There is no cancellation: whenever a request is
    fulfilled its result is shown, whatever else is in flight, and when it
    is rejected the error goes to the console. What the editor does
    instead is never to issue a request while one is pending: in a
    reachable state with a request in flight no event issues another. *)
Theorem results_are_delivered_requests_are_guarded :
  (forall isTauri w n reply w',
      step isTauri w (Settle n reply) = Some w' ->
      exists req,
        req ∈ w.(inflight) /\ req.(rid) = n
        /\ match AIService.completeCode isTauri reply
                 req.(request_context) req.(request_level) with
           | Resolved r =>
             w'.(ui).(currentSuggestion) = Some r
             /\ w'.(ui).(showSuggestion) = true
             /\ w'.(console) = w.(console)
           | Rejected e =>
             w'.(ui).(currentSuggestion) = w.(ui).(currentSuggestion)
             /\ w'.(ui).(showSuggestion) = w.(ui).(showSuggestion)
             /\ w'.(console)
                = w.(console) ++ [(js "AI completion failed:", e)]
           end)
  /\ (forall isTauri w ev w',
        reachable isTauri w -> w.(inflight) <> [] ->
        step isTauri w ev = Some w' -> w'.(issued) = w.(issued)).
Proof.
  split.
  - apply settle_delivers.
  - intros isTauri w ev w' Hr. apply step_issues_nothing_while_pending.
    by eapply reachable_one_inflight.
Qed.

Lemma results_are_delivered_requests_are_guarded_witness :
  (step true Sample.oneRequestQuiet (Settle 0 (Resolved Sample.resultA))
   = Some Sample.shownA
   /\ exists req,
       req ∈ Sample.oneRequestQuiet.(inflight) /\ req.(rid) = 0%nat
       /\ match AIService.completeCode true (Resolved Sample.resultA)
                req.(request_context) req.(request_level) with
          | Resolved r =>
            Sample.shownA.(ui).(currentSuggestion) = Some r
            /\ Sample.shownA.(ui).(showSuggestion) = true
            /\ Sample.shownA.(console) = Sample.oneRequestQuiet.(console)
          | Rejected e =>
            Sample.shownA.(ui).(currentSuggestion)
            = Sample.oneRequestQuiet.(ui).(currentSuggestion)
            /\ Sample.shownA.(ui).(showSuggestion)
               = Sample.oneRequestQuiet.(ui).(showSuggestion)
            /\ Sample.shownA.(console)
               = Sample.oneRequestQuiet.(console)
                 ++ [(js "AI completion failed:", e)]
          end)
  /\ (reachable true Sample.oneRequest
      /\ Sample.oneRequest.(inflight) <> []
      /\ step true Sample.oneRequest TimerFires
         = Some Sample.oneRequestQuiet
      /\ Sample.oneRequestQuiet.(issued) = Sample.oneRequest.(issued)).
Proof.
  pose proof results_are_delivered_requests_are_guarded as [Hd Hg].
  assert (Hr : reachable true Sample.oneRequest).
  { apply (reachable_step true initialWorld TimerFires Sample.oneRequest);
      [apply reachable_initial | reflexivity]. }
  split.
  - split; [reflexivity|].
    apply (Hd true Sample.oneRequestQuiet 0%nat (Resolved Sample.resultA)
             Sample.shownA).
    reflexivity.
  - split; [exact Hr|]. split; [discriminate|]. split; [reflexivity|].
    apply (Hg true Sample.oneRequest TimerFires Sample.oneRequestQuiet Hr);
      [discriminate | reflexivity].
Defined.

(** C5, as stated, fails: outside Tauri there is no backend, and whatever
    one would have answered, a rejection too, the request ends with the
    canned Button candidate on show and nothing reported. And inside Tauri
    a request the backend does not answer is not timed out: when the
    two-second timer fires the request is still in flight, the editor still
    loading, and nothing has been reported. *)
Lemma mock_service_fabricates_candidate :
  run_requestAICompletion false (Rejected Sample.unavailable) initialState
  = ( {| showSuggestion := true;
         currentSuggestion := Some (MockAIService.completion Component);
         isLoadingSuggestion := false;
         code := initialCode |}, [] )
  /\ step true Sample.oneRequest TimerFires = Some Sample.oneRequestQuiet
  /\ Sample.oneRequestQuiet.(inflight) = [Sample.requestA]
  /\ Sample.oneRequestQuiet.(ui).(isLoadingSuggestion) = true
  /\ Sample.oneRequestQuiet.(console) = [].
Proof. repeat split. Qed.

(** C5, amended. Inside Tauri a request that settles ends in one of two
    ways: fulfilled, the one result is shown; rejected, the error is
    written to the console and the suggestion on show, if any, is left as
    it was, so no candidate is made up. Outside Tauri the mock service
    always fulfils with its fixed candidate. No event other than the
    settling of a request takes it out of flight: there is no cancelled
    outcome and no timeout. *)
Theorem completion_outcomes :
  (forall st r,
      run_requestAICompletion true (Resolved r) st
      = ( {| showSuggestion := true; currentSuggestion := Some r;
             isLoadingSuggestion := false; code := st.(code) |}, [] ))
  /\ (forall st e,
        run_requestAICompletion true (Rejected e) st
        = ( {| showSuggestion := st.(showSuggestion);
               currentSuggestion := st.(currentSuggestion);
               isLoadingSuggestion := false; code := st.(code) |},
            [ ConsoleError (js "AI completion failed:") e ] ))
  /\ (forall st reply,
        run_requestAICompletion false reply st
        = ( {| showSuggestion := true;
               currentSuggestion := Some (MockAIService.completion Component);
               isLoadingSuggestion := false; code := st.(code) |}, [] ))
  /\ (forall isTauri w ev w' req,
        step isTauri w ev = Some w' -> req ∈ w.(inflight) ->
        (forall reply, ev <> Settle req.(rid) reply) ->
        req ∈ w'.(inflight)).
Proof.
  split; [reflexivity|]. split; [reflexivity|]. split; [reflexivity|].
  intros isTauri w ev w' req Hstep Hin Hev. step_cases Hstep;
    try exact Hin.
  - destruct (autoCompletion_cases (ui w)) as [(-> & _)| ->]; simpl;
      [|exact Hin].
    apply elem_of_app. by left.
  - rewrite (proj1 (settled_inflight _ _ _)). simpl.
    apply list_elem_of_filter. split; [|exact Hin].
    intros Heq. apply (Hev reply). by rewrite Heq.
Qed.

Lemma completion_outcomes_witness :
  step true Sample.twoRequests (Settle 0 (Resolved Sample.resultA))
  = Some Sample.afterA
  /\ Sample.requestB ∈ Sample.twoRequests.(inflight)
  /\ (forall reply,
        Settle 0 (Resolved Sample.resultA)
        <> Settle Sample.requestB.(rid) reply)
  /\ Sample.requestB ∈ Sample.afterA.(inflight).
Proof.
  pose proof completion_outcomes as (_ & _ & _ & Hstay).
  assert (Hin : Sample.requestB ∈ Sample.twoRequests.(inflight))
    by (right; left).
  assert (Hne : forall reply,
             Settle 0 (Resolved Sample.resultA)
             <> Settle Sample.requestB.(rid) reply)
    by (intros reply; discriminate).
  split; [reflexivity|]. split; [exact Hin|]. split; [exact Hne|].
  exact (Hstay true Sample.twoRequests
           (Settle 0 (Resolved Sample.resultA)) Sample.afterA
           Sample.requestB eq_refl Hin Hne).
Defined.

End EditorFacts.

(** ** The sidebar *)

Section SidebarFacts.
Import TauriApi Sidebar.



End SidebarFacts.

(** ** Blank input *)

Section BlankInput.

(** C8. An input that is empty or made of white space only is ignored:
    [executeCommand] of the terminal and [sendMessage] of the sidebar, in
    both versions of each, return the state they were given and start
    nothing (no service call, no timer). *)
Theorem blank_input_is_ignored (input : jsstring) :
  whitespace_only input = true ->
  (forall now st, Terminal.executeCommand now st input = (st, []))
  /\ (forall st,
        st.(Sidebar.chatInput) = input -> Sidebar.sendMessage st = (st, []))
  /\ (forall now st,
        SimulatedTerminal.executeCommand now st input = (st, []))
  /\ (forall st,
        st.(StaticSidebar.chatInput) = input ->
        StaticSidebar.sendMessage st = st)
  /\ (forall isTauri now w,
        w.(Terminal.seen).(Terminal.currentCommand) = input ->
        Terminal.step isTauri now w (Terminal.KeyPress (js "Enter"))
        = Some w).
Proof.
  intros H. apply blank_iff in H.
  split; [|split; [|split; [|split]]].
  - intros now st. unfold Terminal.executeCommand. by rewrite H.
  - intros st <-. unfold Sidebar.sendMessage. by rewrite H.
  - intros now st. unfold SimulatedTerminal.executeCommand. by rewrite H.
  - intros st <-. unfold StaticSidebar.sendMessage. by rewrite H.
  - intros isTauri now [sn st calls] Hc. simpl in *. subst input.
    unfold Terminal.handleKeyPress. rewrite bool_decide_eq_true_2 by done.
    unfold Terminal.executeCommand. rewrite H. simpl.
    by rewrite app_nil_r.
Qed.

Lemma blank_input_is_ignored_witness :
  whitespace_only Sample.blank = true
  /\ (forall now st, Terminal.executeCommand now st Sample.blank = (st, []))
     /\ (forall st,
           st.(Sidebar.chatInput) = Sample.blank ->
           Sidebar.sendMessage st = (st, []))
     /\ (forall now st,
           SimulatedTerminal.executeCommand now st Sample.blank = (st, []))
     /\ (forall st,
           st.(StaticSidebar.chatInput) = Sample.blank ->
           StaticSidebar.sendMessage st = st)
     /\ (forall isTauri now w,
           w.(Terminal.seen).(Terminal.currentCommand) = Sample.blank ->
           Terminal.step isTauri now w (Terminal.KeyPress (js "Enter"))
           = Some w).
Proof.
  split; [reflexivity|].
  apply (blank_input_is_ignored Sample.blank). reflexivity.
Defined.

(** An input with anything else in it is not ignored. *)
Lemma other_input_is_taken now st input :
  whitespace_only input = false ->
  (Terminal.executeCommand now st input).1.(Terminal.history)
  = st.(Terminal.history)
    ++ [ {| Terminal.type := Terminal.Command;
            Terminal.content := input;
            Terminal.timestamp := Some now |} ].
Proof.
  intros H. unfold Terminal.executeCommand.
  destruct (negb (truthy (trim input))) eqn:E; [|reflexivity].
  apply blank_iff in E. congruence.
Qed.

End BlankInput.

(** ** The history of the terminal *)

Section TerminalFacts.
Import Terminal.

Lemma executeCommand_extends now st command :
  st.(history) `prefix_of` (executeCommand now st command).1.(history).
Proof.
  unfold executeCommand. destruct (negb _); simpl; [done|].
  by apply prefix_app_r.
Qed.

Lemma executeCommand_settled_extends now response st :
  st.(history) `prefix_of` (executeCommand_settled now response st).(history).
Proof. destruct response; simpl; by apply prefix_app_r. Qed.


Lemma simulated_terminal_play_run toLowerCase events w w' :
  simulated_terminal_play toLowerCase events w = Some w' ->
  simulated_terminal_run toLowerCase w w'.
Proof.
  revert w. induction events as [|[now ev] rest IH]; intros w; simpl.
  - intros [= <-]. constructor.
  - destruct (SimulatedTerminal.step toLowerCase now w ev) as [w1|] eqn:E;
      [|done].
    intros H. eapply simulated_terminal_run_step; eauto.
Qed.

(** C9 fails on the code. [executeCommand] sets the history to the history
    of the render its handler belongs to, plus the command
    ([setHistory(newHistory)]), while its continuation appends with
    [setHistory(prev => ...)]. In the session of [Sample.untilAnswer] the
    answer to [ls] has been appended but not rendered when Enter is pressed
    for [pwd]: the output line of [ls], which was in the history, is gone
    afterwards, and stays gone once rendered. *)
Theorem enter_before_render_drops_output :
  terminal_play true Sample.untilAnswer (initialWorld 0)
  = Some Sample.lsAnswered
  /\ Sample.lsAnswered.(ui).(history)
     = initialHistory 0 ++ [Sample.lsLine; Sample.lsOutput]
  /\ step true 7 Sample.lsAnswered (KeyPress (js "Enter"))
     = Some Sample.pwdSubmitted
  /\ Sample.pwdSubmitted.(ui).(history)
     = initialHistory 0 ++ [Sample.lsLine; Sample.pwdLine]
  /\ (Sample.lsOutput ∈ Sample.lsAnswered.(ui).(history))
  /\ (Sample.lsOutput ∉ Sample.pwdSubmitted.(ui).(history))
  /\ ~ (Sample.lsAnswered.(ui).(history)
        `prefix_of` Sample.pwdSubmitted.(ui).(history))
  /\ step true 8 Sample.pwdSubmitted Render
     = Some {| seen := Sample.pwdSubmitted.(ui);
               ui := Sample.pwdSubmitted.(ui);
               calls := Sample.pwdSubmitted.(calls) |}.
Proof.
  split; [vm_compute; reflexivity|]. split; [reflexivity|].
  split; [vm_compute; reflexivity|]. split; [reflexivity|].
  split; [|split; [|split; [|reflexivity]]].
  - apply (bool_decide_unpack _). vm_compute. exact I.
  - apply (proj1 (bool_decide_eq_false _)). vm_compute. reflexivity.
  - apply (proj1 (bool_decide_eq_false _)). vm_compute. reflexivity.
Qed.

(** The simulated terminal has the same defect: the lines of the response
    to [ls] are lost when Enter is pressed before they are rendered. *)
Lemma simulated_enter_before_render_drops_response :
  exists w,
    simulated_terminal_play (fun s => s) Sample.untilResponse
      (SimulatedTerminal.initialWorld 0) = Some w
    /\ length w.(SimulatedTerminal.ui).(history) = 9%nat
    /\ option_map (fun w' => w'.(SimulatedTerminal.ui).(history))
         (SimulatedTerminal.step (fun s => s) 7 w
            (SimulatedTerminal.KeyPress (js "Enter")))
       = Some (initialHistory 0 ++ [Sample.lsLine; Sample.pwdLine]).
Proof.
  eexists. split; [vm_compute; reflexivity|].
  split; vm_compute; reflexivity.
Qed.

(** X7. What holds: as long as the last render shows every update, an
    event only appends to the history. *)
Lemma step_extends_when_rendered isTauri now w ev w' :
  w.(seen) = w.(ui) ->
  step isTauri now w ev = Some w' ->
  w.(ui).(history) `prefix_of` w'.(ui).(history).
Proof.
  intros Hseen. destruct ev as [value|key|i reply|]; simpl.
  - intros [= <-]. done.
  - rewrite Hseen. unfold handleKeyPress. case_bool_decide.
    + pose proof (executeCommand_extends now (ui w) (currentCommand (ui w))).
      destruct (executeCommand _ _ _) as [st [|e effects]]; by intros [= <-].
    + by intros [= <-].
  - destruct (calls w !! i); [|done]. intros [= <-].
    apply executeCommand_settled_extends.
  - by intros [= <-].
Qed.

End TerminalFacts.

(** ** The embedding index *)

Section QueryFacts.
Import CodeIndex.
Context {Vector : Type}.
Variable array_cosine_similarity : Vector -> Vector -> Q.

Implicit Types (table : gmap jsstring (@Row Vector)).
Implicit Types (r a b : @SearchResult Vector).

#[local] Instance descending_transitive :
  Transitive (@descending Vector).
Proof.
  intros a b c Hab Hbc. unfold descending in *.
  exact (Qle_trans _ _ _ Hbc Hab).
Qed.

#[local] Instance descending_total : Total (@descending Vector).
Proof.
  intros a b. unfold descending.
  destruct (Qlt_le_dec (similarity a) (similarity b)) as [H|H];
    [right; by apply Qlt_le_weak | by left].
Qed.

Lemma StronglySorted_take {A} (R : relation A) (l : list A) n :
  StronglySorted R l -> StronglySorted R (take n l).
Proof.
  intros H. rewrite <- (take_drop n l) in H.
  by apply StronglySorted_app_1_l in H.
Qed.

Lemma StronglySorted_lookup_lt {A} (R : relation A) (l : list A) i j x y :
  StronglySorted R l -> (i < j)%nat ->
  l !! i = Some x -> l !! j = Some y -> R x y.
Proof.
  intros H. revert i j x y.
  induction H as [|z l Hl IH Hz]; intros i j x y Hij Hi Hj.
  - by rewrite lookup_nil in Hi.
  - destruct j as [|j]; [lia|]. simpl in Hj. destruct i as [|i].
    + simpl in Hi. injection Hi as <-.
      rewrite Forall_forall in Hz. apply Hz.
      by eapply list_elem_of_lookup_2.
    + simpl in Hi. apply (IH i j); [lia|done..].
Qed.

Lemma filter_all {A} (P : A -> Prop) `{!forall x, Decision (P x)}
    (l : list A) :
  (forall x, P x) -> filter P l = l.
Proof.
  intros HP. induction l as [|x l IH]; [done|].
  rewrite filter_cons_True by done. by rewrite IH.
Qed.

Lemma elem_of_scored q table r :
  r ∈ scored array_cosine_similarity q table <->
  table !! r.(id) = Some r.(row)
  /\ r.(similarity) = array_cosine_similarity r.(row).(embedding) q.
Proof.
  unfold scored. rewrite list_elem_of_fmap. split.
  - intros ([k x] & -> & Hin). simpl.
    by apply elem_of_map_to_list in Hin.
  - intros [Hl Hs]. exists (r.(id), r.(row)). split.
    + destruct r; simpl in *. by subst.
    + by apply elem_of_map_to_list.
Qed.

(** The [k] best of the rows a condition keeps. *)
Lemma ranked_rows (P : @SearchResult Vector -> Prop)
    `{!forall r, Decision (P r)} q k table :
  let results :=
    take k (merge_sort descending
              (filter P (scored array_cosine_similarity q table))) in
  (length results <= k)%nat
  /\ (forall i j a b,
        (i <= j)%nat -> results !! i = Some a -> results !! j = Some b ->
        (b.(similarity) <= a.(similarity))%Q)
  /\ (forall r, r ∈ results ->
        P r /\ table !! r.(id) = Some r.(row)
        /\ r.(similarity) = array_cosine_similarity r.(row).(embedding) q).
Proof.
  intros results.
  split; [unfold results; rewrite length_take; lia|]. split.
  - intros i j a b Hij Ha Hb.
    destruct (decide (i = j)) as [->|Hne].
    + rewrite Ha in Hb. injection Hb as ->. apply Qle_refl.
    + apply (StronglySorted_lookup_lt descending results i j a b);
        [|lia|done..].
      apply StronglySorted_take, StronglySorted_merge_sort; apply _.
  - intros r Hr. apply subseteq_take in Hr.
    rewrite merge_sort_Permutation in Hr.
    apply list_elem_of_filter in Hr as [HP Hr].
    apply elem_of_scored in Hr. tauto.
Qed.

(** C2. [query] with parameter [k] returns at most [k] results; the
    similarity does not increase from one result to the next; each result
    is an entry of the store with its similarity to the query, so that an
    id that was removed, by [remove] or with its file, is not among them.
    [search_similar] is [query] with a filter that keeps every row. *)
Theorem query_returns_the_best_live_entries
    (vector : Vector) (k : nat) (keep : @SearchResult Vector -> bool)
    (table : gmap jsstring (@Row Vector)) :
  let results := query array_cosine_similarity vector k keep table in
  (length results <= k)%nat
  /\ (forall i j a b,
        (i <= j)%nat -> results !! i = Some a -> results !! j = Some b ->
        (b.(similarity) <= a.(similarity))%Q)
  /\ (forall r, r ∈ results ->
        keep r = true /\ table !! r.(id) = Some r.(row)
        /\ r.(similarity)
           = array_cosine_similarity r.(row).(embedding) vector)
  /\ (forall removed r,
        r ∈ query array_cosine_similarity vector k keep
              (remove removed table) ->
        r.(id) <> removed)
  /\ (forall path r,
        r ∈ query array_cosine_similarity vector k keep
              (removeFileFromIndex path table) ->
        r.(row).(file_path) <> path)
  /\ search_similar array_cosine_similarity vector k table
     = query array_cosine_similarity vector k (fun _ => true) table.
Proof.
  intros results.
  pose proof (ranked_rows (fun r => keep r = true) vector k table)
    as (Hlen & Hord & Hin).
  split; [exact Hlen|]. split; [exact Hord|]. split; [exact Hin|].
  split; [|split].
  - intros removed r Hr.
    apply (ranked_rows (fun r => keep r = true)) in Hr as (_ & Hl & _).
    unfold remove in Hl. intros Heq. rewrite Heq in Hl.
    by rewrite lookup_delete_eq in Hl.
  - intros path r Hr.
    apply (ranked_rows (fun r => keep r = true)) in Hr as (_ & Hl & _).
    unfold removeFileFromIndex in Hl.
    by apply map_lookup_filter_Some_1_2 in Hl.
  - unfold search_similar, query. f_equal. f_equal.
    symmetry. by apply filter_all.
Qed.

(** The two queries of the documents, likewise. *)
Lemma search_similar_ranked q limit table :
  let results := search_similar array_cosine_similarity q limit table in
  (length results <= limit)%nat
  /\ (forall i j a b,
        (i <= j)%nat -> results !! i = Some a -> results !! j = Some b ->
        (b.(similarity) <= a.(similarity))%Q)
  /\ (forall r, r ∈ results -> table !! r.(id) = Some r.(row)).
Proof.
  intros results.
  pose proof (ranked_rows (fun _ => True) q limit table) as (Hl & Ho & Hi).
  unfold results, search_similar.
  rewrite filter_all in Hl, Ho, Hi by done.
  split; [exact Hl|]. split; [exact Ho|]. intros r Hr. by apply Hi.
Qed.

Lemma core_embedding_query_ranked q table :
  let results := core_embedding_query array_cosine_similarity q table in
  (length results <= 10)%nat
  /\ (forall i j a b,
        (i <= j)%nat -> results !! i = Some a -> results !! j = Some b ->
        (b.(similarity) <= a.(similarity))%Q)
  /\ (forall r, r ∈ results ->
        (6 # 10 < r.(similarity))%Q /\ table !! r.(id) = Some r.(row)).
Proof.
  intros results.
  pose proof (ranked_rows (fun r => (6 # 10 < similarity r)%Q) q 10 table)
    as (Hl & Ho & Hi).
  split; [exact Hl|]. split; [exact Ho|]. intros r Hr.
  apply Hi in Hr. tauto.
Qed.

End QueryFacts.

(** *** Re-indexing *)

Section ReindexFacts.
Import CodeIndex.
Context {Vector : Type}.
Variable languageOf : jsstring -> jsstring.
Variable extractSemanticBlocks : jsstring -> jsstring -> list CodeBlock.
Variable embed : jsstring -> Vector.
Variable blockId : jsstring -> CodeBlock -> jsstring.

Implicit Types (table : gmap jsstring (@Row Vector)).

Lemma foldl_store rows table :
  foldl (fun t kr => store_embedding kr.1 kr.2 t) table rows
  = list_to_map (reverse rows) ∪ table.
Proof.
  revert table. induction rows as [|[k x] rows IH]; intros table; simpl.
  - by rewrite (left_id_L ∅ (∪)).
  - rewrite IH, reverse_cons, list_to_map_app. simpl.
    unfold store_embedding. simpl.
    rewrite insert_empty, <- (assoc_L (∪)).
    by rewrite <- insert_union_singleton_l.
Qed.

Lemma rowsOf_file_path path content k x :
  (list_to_map (reverse
     (rowsOf languageOf extractSemanticBlocks embed blockId path content))
     : gmap jsstring Row) !! k = Some x ->
  x.(file_path) = path.
Proof.
  intros H. apply elem_of_list_to_map_2 in H.
  rewrite elem_of_reverse in H. unfold rowsOf in H.
  apply list_elem_of_fmap in H as (block & [= -> ->] & _). reflexivity.
Qed.

Lemma reindex_lookup path content table k :
  updateIndex languageOf extractSemanticBlocks embed blockId
    [ {| filePath := path; newContent := content |} ] table !! k
  = match (list_to_map (reverse
             (rowsOf languageOf extractSemanticBlocks embed blockId
                path content)) : gmap jsstring Row) !! k with
    | Some x => Some x
    | None =>
      match table !! k with
      | Some x => if decide (x.(file_path) = path) then None else Some x
      | None => None
      end
    end.
Proof.
  simpl. unfold indexFile. rewrite foldl_store, lookup_union.
  destruct (list_to_map _ !! k) as [x|]; simpl.
  - by destruct (removeFileFromIndex _ _ !! k).
  - rewrite (left_id_L None union).
    unfold removeFileFromIndex. rewrite map_lookup_filter.
    destruct (table !! k) as [x|]; simpl; [|done].
    destruct (decide (file_path x = path)).
    + by rewrite option_guard_False by (simpl; tauto).
    + by rewrite option_guard_True.
Qed.

(** C7. Re-indexing a file whose content has not changed leaves the index
    as the first indexing made it: the same ids with the same rows, the
    embeddings among them, and, the id being the key of the table, one
    entry for each id. *)
Theorem reindexing_unchanged_file_is_idempotent
    (path content : jsstring) (table : gmap jsstring (@Row Vector)) :
  let reindex :=
    updateIndex languageOf extractSemanticBlocks embed blockId
      [ {| filePath := path; newContent := content |} ] in
  reindex (reindex table) = reindex table
  /\ (forall id, reindex (reindex table) !! id = reindex table !! id)
  /\ NoDup ((map_to_list (reindex (reindex table))).*1)
  /\ updateIndex languageOf extractSemanticBlocks embed blockId
       [ {| filePath := path; newContent := content |};
         {| filePath := path; newContent := content |} ] table
     = reindex table.
Proof.
  intros reindex.
  assert (H : reindex (reindex table) = reindex table).
  { apply map_eq. intros k. unfold reindex.
    rewrite !reindex_lookup.
    destruct (list_to_map _ !! k) as [x|] eqn:E; [done|].
    destruct (table !! k) as [x|]; [|done].
    destruct (decide (file_path x = path)) as [Heq|Hne]; [done|].
    by rewrite decide_False. }
  split; [exact H|]. split; [by rewrite H|].
  split; [apply NoDup_fst_map_to_list|]. exact H.
Qed.

End ReindexFacts.

Example search_similar_two_nearest :
  List.map CodeIndex.id
    (CodeIndex.search_similar Sample.closeness (3 # 1)%Q 2 Sample.threeFiles)
  = [js "b.ts:1"; js "a.ts:1"].
Proof. vm_compute. reflexivity. Qed.

Example query_after_remove :
  List.map (fun r => (CodeIndex.id r, CodeIndex.similarity r))
    (CodeIndex.query Sample.closeness (3 # 1)%Q 5 (fun _ => true)
       (CodeIndex.remove (js "b.ts:1") Sample.threeFiles))
  = [(js "a.ts:1", (-4)%Q); (js "c.ts:1", (-9)%Q)].
Proof. vm_compute. reflexivity. Qed.

Example reindex_keeps_three_rows :
  size (Sample.reindex (js "b.ts") (js "abc") Sample.threeFiles) = 3%nat
  /\ size (Sample.reindex (js "b.ts") (js "abcd") Sample.threeFiles) = 3%nat.
Proof. split; vm_compute; reflexivity. Qed.

Example simulated_test_run :
  List.map Terminal.type
    (SimulatedTerminal.getAIResponse (fun s => s) 3 (js "  npm test "))
  = [Terminal.Output; Terminal.Output; Terminal.Error; Terminal.Suggestion].
Proof. vm_compute. reflexivity. Qed.

Lemma query_returns_the_best_live_entries_witness :
  let results :=
    CodeIndex.query Sample.closeness (3 # 1)%Q 2 (fun _ => true)
      Sample.threeFiles in
  (length results <= 2)%nat
  /\ (forall i j a b,
        (i <= j)%nat -> results !! i = Some a -> results !! j = Some b ->
        (b.(CodeIndex.similarity) <= a.(CodeIndex.similarity))%Q)
  /\ (forall r, r ∈ results ->
        true = true
        /\ Sample.threeFiles !! r.(CodeIndex.id) = Some r.(CodeIndex.row)
        /\ r.(CodeIndex.similarity)
           = Sample.closeness r.(CodeIndex.row).(CodeIndex.embedding)
               (3 # 1)%Q)
  /\ (forall removed r,
        r ∈ CodeIndex.query Sample.closeness (3 # 1)%Q 2 (fun _ => true)
              (CodeIndex.remove removed Sample.threeFiles) ->
        r.(CodeIndex.id) <> removed)
  /\ (forall path r,
        r ∈ CodeIndex.query Sample.closeness (3 # 1)%Q 2 (fun _ => true)
              (CodeIndex.removeFileFromIndex path Sample.threeFiles) ->
        r.(CodeIndex.row).(CodeIndex.file_path) <> path)
  /\ CodeIndex.search_similar Sample.closeness (3 # 1)%Q 2 Sample.threeFiles
     = CodeIndex.query Sample.closeness (3 # 1)%Q 2 (fun _ => true)
         Sample.threeFiles.
Proof.
  exact (query_returns_the_best_live_entries Sample.closeness (3 # 1)%Q 2
           (fun _ => true) Sample.threeFiles).
Defined.

Lemma reindexing_unchanged_file_is_idempotent_witness :
  Sample.reindex (js "b.ts") (js "abc")
    (Sample.reindex (js "b.ts") (js "abc") Sample.threeFiles)
  = Sample.reindex (js "b.ts") (js "abc") Sample.threeFiles
  /\ size (Sample.reindex (js "b.ts") (js "abc") Sample.threeFiles) = 3%nat.
Proof.
  split; [|vm_compute; reflexivity].
  apply (reindexing_unchanged_file_is_idempotent (fun _ => js "typescript")
           Sample.wholeFile Sample.textLength CodeIndex.lineId
           (js "b.ts") (js "abc") Sample.threeFiles).
Defined.

(** * Further properties *)

(** ** Splitting, joining and searching strings *)

Section StringOperations.

Lemma split_not_nil sep s : split sep s <> [].
Proof.
  destruct s as [|c r]; simpl; [done|].
  destruct (c =? sep); [done|]. by destruct (split sep r).
Qed.

Lemma join_cons sep p q ps :
  join sep (p :: q :: ps) = p ++ sep ++ join sep (q :: ps).
Proof. reflexivity. Qed.

(** [s.split(sep).join(sep)] is [s]. *)
Lemma join_split sep s : join [sep] (split sep s) = s.
Proof.
  induction s as [|c r IH]; [reflexivity|]. simpl.
  destruct (N.eqb_spec c sep) as [->|Hne].
  - pose proof (split_not_nil sep r) as Hnil.
    destruct (split sep r) as [|h t]; [done|].
    rewrite join_cons, IH. reflexivity.
  - destruct (split sep r) as [|h t] eqn:E; [by apply split_not_nil in E|].
    destruct t as [|h' t'].
    + simpl in *. by rewrite IH.
    + rewrite join_cons. rewrite join_cons in IH. rewrite <- IH.
      reflexivity.
Qed.


Lemma split_length sep s :
  length (split sep s) = S (length (filter (fun c => c = sep) s)).
Proof.
  induction s as [|c r IH]; [reflexivity|]. simpl.
  rewrite filter_cons. destruct (N.eqb_spec c sep) as [->|Hne].
  - rewrite decide_True by done. simpl. by rewrite IH.
  - rewrite decide_False by done.
    destruct (split sep r) as [|h t]; simpl in *; [lia|done].
Qed.

Lemma split_without sep s : sep ∉ s -> split sep s = [s].
Proof.
  induction s as [|c r IH]; [reflexivity|]. intros Hn. simpl.
  destruct (N.eqb_spec c sep) as [->|Hne]; [set_solver|].
  rewrite IH by set_solver. reflexivity.
Qed.

Lemma startsWith_spec s p :
  startsWith s p = true <-> exists post, s = p ++ post.
Proof.
  revert s. induction p as [|a p IH]; intros s.
  - split; [intros _; by exists s | intros _; by destruct s].
  - destruct s as [|b s]; simpl.
    + split; [done | intros [post H]; discriminate H].
    + rewrite andb_true_iff, N.eqb_eq, IH. split.
      * intros [-> [post ->]]. eauto.
      * intros [post [= -> ->]]. eauto.
Qed.

Lemma includes_cons c r sub :
  includes (c :: r) sub = startsWith (c :: r) sub || includes r sub.
Proof. reflexivity. Qed.

(** [s.includes(sub)]: [sub] occurs somewhere in [s]. *)
Lemma includes_spec s sub :
  includes s sub = true <-> exists pre post, s = pre ++ sub ++ post.
Proof.
  induction s as [|c r IH].
  - change (includes [] sub) with (startsWith [] sub || false).
    rewrite orb_false_r, startsWith_spec. split.
    + intros [post H]. exists [], post. done.
    + intros (pre & post & H). symmetry in H.
      apply app_eq_nil in H as [-> [-> ->]%app_eq_nil]. by exists [].
  - rewrite includes_cons, orb_true_iff, startsWith_spec, IH. split.
    + intros [[post H]|(pre & post & ->)].
      * exists [], post. done.
      * exists (c :: pre), post. done.
    + intros (pre & post & H). destruct pre as [|c' pre].
      * left. exists post. done.
      * right. injection H as -> ->. eauto.
Qed.

Lemma includes_app_l s t sub :
  includes s sub = true -> includes (s ++ t) sub = true.
Proof.
  rewrite !includes_spec. intros (pre & post & ->).
  exists pre, (post ++ t). by rewrite <- !(assoc_L (++)).
Qed.

Lemma includes_app_r s t sub :
  includes t sub = true -> includes (s ++ t) sub = true.
Proof.
  rewrite !includes_spec. intros (pre & post & ->).
  exists (s ++ pre), post. by rewrite <- !(assoc_L (++)).
Qed.

End StringOperations.

(** ** The terminal: a command from Enter to its answer *)

Section TerminalCommands.
Import TauriApi Terminal.
#[local] Opaque js.

Lemma not_blank command :
  whitespace_only command = false -> negb (truthy (trim command)) = false.
Proof.
  intros H. destruct (negb (truthy (trim command))) eqn:E; [|done].
  apply blank_iff in E. congruence.
Qed.

Lemma split_head_tail sep s :
  hd [] (split sep s) ++ [sep] ++ join [sep] (tl (split sep s))
  = s ++ (if bool_decide (sep ∈ s) then [] else [sep]).
Proof.
  case_bool_decide as Hin.
  - rewrite app_nil_r. rewrite <- (join_split sep s) at 3.
    pose proof (split_length sep s) as Hlen.
    destruct (split sep s) as [|h [|q t]] eqn:E; simpl in *.
    + lia.
    + assert (Hf : filter (fun c => c = sep) s = []).
      { by destruct (filter _ s). }
      assert (sep ∈ filter (fun c => c = sep) s)
        by (by apply list_elem_of_filter).
      rewrite Hf in *. by apply elem_of_nil in H.
    + reflexivity.
  - rewrite split_without by done. reflexivity.
Qed.

Lemma delete_last {A} (l : list A) x : delete (length l) (l ++ [x]) = l.
Proof. induction l as [|y l IH]; simpl; [done|]. by rewrite IH. Qed.

(** X1. Outside Tauri a command that is not blank is echoed. With the state
    rendered, Enter puts the command line in the history and starts one
    call, and when that call settles the history has three new lines in
    all: the command as typed, "Executed: " with the command (followed by a
    space when the command has none), and the one suggestion of the mock
    service; the terminal is idle again. *)
Theorem mock_command_cycle (t1 t2 : Date) (w : World)
    (reply : Settled TerminalResponse) :
  let input := w.(ui).(currentCommand) in
  w.(seen) = w.(ui) ->
  whitespace_only input = false ->
  exists w1 w2,
    step false t1 w (KeyPress (js "Enter")) = Some w1
    /\ step false t2 w1 (Settle (length w.(calls)) reply) = Some w2
    /\ w2.(ui).(history)
       = w.(ui).(history)
         ++ [ {| type := Command; content := input; timestamp := Some t1 |};
              {| type := Output;
                 content :=
                   js "Executed: " ++ input
                   ++ (if bool_decide (0x20 ∈ input) then [] else [0x20]);
                 timestamp := Some t2 |};
              {| type := Suggestion;
                 content := js "💡 AI suggests: This is a simulated response";
                 timestamp := Some t2 |} ]
    /\ w2.(ui).(isThinking) = false
    /\ w2.(ui).(currentCommand) = []
    /\ w2.(calls) = w.(calls).
Proof.
  intros input Hseen Hnb. destruct w as [sn [h c th] cs]. simpl in *.
  subst input sn.
  unfold step, handleKeyPress, executeCommand.
  cbn [seen ui currentCommand calls history isThinking].
  rewrite bool_decide_eq_true_2 by done. rewrite (not_blank _ Hnb).
  eexists. eexists. split; [reflexivity|]. simpl.
  rewrite lookup_app_r by lia. rewrite Nat.sub_diag. simpl.
  split; [reflexivity|]. simpl.
  rewrite delete_last. repeat split.
  rewrite <- (assoc_L (++)). simpl. unfold outputs. simpl.
  assert (Hsp : js " " = [0x20]) by (vm_compute; reflexivity).
  assert (Hsg : js "💡 AI suggests: " ++ js "This is a simulated response"
                = js "💡 AI suggests: This is a simulated response")
    by (vm_compute; reflexivity).
  rewrite Hsg, Hsp, <- (split_head_tail 0x20 c). reflexivity.
Qed.

Lemma mock_command_cycle_witness :
  Sample.lsTyped.(seen) = Sample.lsTyped.(ui)
  /\ whitespace_only Sample.lsTyped.(ui).(currentCommand) = false
  /\ exists w1 w2,
      step false 5 Sample.lsTyped (KeyPress (js "Enter")) = Some w1
      /\ step false 6 w1 (Settle (length Sample.lsTyped.(calls)) (Rejected []))
         = Some w2
      /\ w2.(ui).(history)
         = Sample.lsTyped.(ui).(history)
           ++ [ {| type := Command;
                   content := Sample.lsTyped.(ui).(currentCommand);
                   timestamp := Some 5%Z |};
                {| type := Output;
                   content :=
                     js "Executed: " ++ Sample.lsTyped.(ui).(currentCommand)
                     ++ (if bool_decide
                              (0x20 ∈ Sample.lsTyped.(ui).(currentCommand))
                         then [] else [0x20]);
                   timestamp := Some 6%Z |};
                {| type := Suggestion;
                   content :=
                     js "💡 AI suggests: This is a simulated response";
                   timestamp := Some 6%Z |} ]
      /\ w2.(ui).(isThinking) = false
      /\ w2.(ui).(currentCommand) = []
      /\ w2.(calls) = Sample.lsTyped.(calls).
Proof.
  assert (H : whitespace_only Sample.lsTyped.(ui).(currentCommand) = false)
    by (vm_compute; reflexivity).
  split; [reflexivity|]. split; [exact H|].
  exact (mock_command_cycle 5 6 Sample.lsTyped (Rejected []) eq_refl H).
Defined.









(** X5. Each type of line has a colour of its own, none of them the
    colour of the [default] case; every type but [Output] has an icon. *)
Theorem line_types_are_told_apart :
  (forall t1 t2, getLineColor t1 = getLineColor t2 -> t1 = t2)
  /\ (forall t, getLineColor t <> js "text-[hsl(var(--text-secondary))]")
  /\ (forall t, getLineIcon t = [] <-> t = Output)
  /\ (forall t1 t2, getLineIcon t1 = getLineIcon t2 -> t1 = t2).
Proof.
  split; [|split; [|split]].
  - intros [] []; vm_compute; intros H; first [reflexivity | discriminate H].
  - intros []; vm_compute; discriminate.
  - intros []; vm_compute; split; intros H;
      first [reflexivity | discriminate H].
  - intros [] []; vm_compute; intros H; first [reflexivity | discriminate H].
Qed.

Lemma step_extends_when_rendered_witness :
  Sample.lsShown.(seen) = Sample.lsShown.(ui)
  /\ step true 7 Sample.lsShown (KeyPress (js "Enter")) = Some Sample.pwdKept
  /\ Sample.lsShown.(ui).(history) `prefix_of` Sample.pwdKept.(ui).(history).
Proof.
  assert (Hstep : step true 7 Sample.lsShown (KeyPress (js "Enter"))
                  = Some Sample.pwdKept) by (vm_compute; reflexivity).
  split; [reflexivity|]. split; [exact Hstep|].
  exact (step_extends_when_rendered true 7 Sample.lsShown
           (KeyPress (js "Enter")) Sample.pwdKept eq_refl Hstep).
Defined.

End TerminalCommands.

(** ** The simulated terminal: the canned answers *)

Section SimulatedResponses.
Import Terminal SimulatedTerminal.
#[local] Opaque js.

(** X6. Whatever the command, the simulated assistant answers with two to four
    lines: the first is an output line, the last is the only suggestion,
    none is a command line, and all carry the time of the answer. *)
Theorem getAIResponse_shape (toLowerCase : jsstring -> jsstring)
    (now : Date) (command : jsstring) :
  let response := getAIResponse toLowerCase now command in
  (2 <= length response <= 4)%nat
  /\ type <$> head response = Some Output
  /\ type <$> last response = Some Suggestion
  /\ length (filter (fun l => l.(type) = Suggestion) response) = 1%nat
  /\ Forall (fun l => l.(type) <> Command /\ l.(timestamp) = Some now)
       response.
Proof.
  unfold getAIResponse.
  repeat match goal with
         | |- context [if ?b then _ else _] => destruct b
         end;
    cbn; (split; [lia|]); repeat split; repeat constructor; done.
Qed.

End SimulatedResponses.

(** ** The editor: its overlays *)

Section EditorOverlays.
Import TauriApi CodeEditor.
#[local] Opaque js.

Ltac editor_cases Hstep :=
  match type of Hstep with
  | step _ ?w ?ev = Some _ =>
    destruct ev as [value| |n reply| |]; simpl in Hstep;
    [ | destruct (timer w); [|discriminate Hstep]
      | destruct (filter _ (inflight w)) as [|r l] eqn:E;
        [discriminate Hstep|]
      | destruct (panel (ui w)) eqn:Hpanel; [|discriminate Hstep]
      | destruct (panel (ui w)) eqn:Hpanel; [|discriminate Hstep] ];
    injection Hstep as <-
  end.

Lemma step_overlays_agree isTauri w ev w' :
  overlays_agree w -> step isTauri w ev = Some w' -> overlays_agree w'.
Proof.
  intros (Hs & Hn & Hl & Hx) Hstep. unfold overlays_agree.
  editor_cases Hstep.
  - by simpl.
  - destruct (autoCompletion_cases (ui w)) as [(-> & Hload & Hshow)| ->];
      [|by simpl].
    simpl. split; [exact Hs|]. split; [exact Hn|]. split.
    + intros _. by destruct (inflight w).
    + intros Htrue. congruence.
  - destruct (AIService.completeCode _ _ _ _) as [res|e]; simpl.
    + split; [by eexists|]. by repeat split.
    + split; [exact Hs|]. split; [exact Hn|]. by split.
  - by simpl.
  - by simpl.
Qed.

Lemma reachable_overlays_agree isTauri w :
  reachable isTauri w -> overlays_agree w.
Proof.
  induction 1 as [|w ev w' Hr IH Hstep]; [by repeat split|].
  eapply step_overlays_agree; eauto.
Qed.

Lemma shownA_reachable : reachable true Sample.shownA.
Proof.
  apply (reachable_step true Sample.oneRequest
           (Settle 0 (Resolved Sample.resultA)) Sample.shownA);
    [|vm_compute; reflexivity].
  apply (reachable_step true initialWorld TimerFires Sample.oneRequest);
    [apply reachable_initial | vm_compute; reflexivity].
Qed.

(** X8. In every state the editor can reach, the suggestion panel is up
    exactly when there is a suggestion to show, the "AI thinking" overlay
    exactly when a request is in flight, and never both. *)
Theorem editor_overlays (isTauri : bool) (w : World) :
  reachable isTauri w ->
  (w.(ui).(showSuggestion) = true <-> is_Some w.(ui).(currentSuggestion))
  /\ (panel w.(ui) = w.(ui).(showSuggestion))
  /\ (w.(ui).(isLoadingSuggestion) = true <-> w.(inflight) <> [])
  /\ ~ (w.(ui).(showSuggestion) = true
        /\ w.(ui).(isLoadingSuggestion) = true).
Proof.
  intros Hr. pose proof (reachable_overlays_agree _ _ Hr) as (Hs & Hn & Hl & Hx).
  pose proof (reachable_one_inflight _ _ Hr) as Hone.
  split; [|split; [|split]].
  - split; [exact Hs|]. intros [x Hx']. destruct (showSuggestion (ui w)); [done|].
    rewrite Hn in Hx' by done. discriminate.
  - unfold panel. destruct (showSuggestion (ui w)) eqn:E; [|done].
    simpl. apply bool_decide_eq_true_2. by apply Hs.
  - split; [exact Hl|]. by apply one_inflight_loading.
  - intros [H1 H2]. rewrite Hx in H2 by done. discriminate.
Qed.

Lemma editor_overlays_witness :
  reachable true Sample.shownA
  /\ ((Sample.shownA.(ui).(showSuggestion) = true
       <-> is_Some Sample.shownA.(ui).(currentSuggestion))
      /\ (panel Sample.shownA.(ui) = Sample.shownA.(ui).(showSuggestion))
      /\ (Sample.shownA.(ui).(isLoadingSuggestion) = true
          <-> Sample.shownA.(inflight) <> [])
      /\ ~ (Sample.shownA.(ui).(showSuggestion) = true
            /\ Sample.shownA.(ui).(isLoadingSuggestion) = true)).
Proof.
  split; [exact shownA_reachable|].
  exact (editor_overlays true Sample.shownA shownA_reachable).
Defined.

Lemma acceptSuggestion_code st :
  code (acceptSuggestion st)
  = match currentSuggestion st with
    | Some s =>
      code st
      ++ ([0x0A; 0x0A] ++ js "// AI Generated:" ++ [0x0A]) ++ TauriApi.code s
    | None => code st
    end.
Proof.
  unfold acceptSuggestion. cbn [code].
  destruct (currentSuggestion st); [|done].
  by rewrite <- !(assoc_L (++)).
Qed.

(** X9. Closing the panel, by accepting or by dismissing the suggestion, only
    silences the editor until the timer fires: if the code then contains
    "const ", a new request is issued. Accepting keeps a "const " the code
    had, and adds one when the accepted code has one. *)
Theorem closed_suggestion_comes_back (isTauri : bool) (w w' : World)
    (ev : Event) :
  reachable isTauri w ->
  ev = Accept \/ ev = Dismiss ->
  step isTauri w ev = Some w' ->
  (includes w'.(ui).(code) (js "const ") = true ->
   exists w'',
     step isTauri w' TimerFires = Some w''
     /\ w''.(inflight)
        = [ {| rid := w'.(issued); request_context := context;
               request_level := Component |} ]
     /\ w''.(issued) = S w'.(issued)
     /\ w''.(ui).(isLoadingSuggestion) = true)
  /\ (ev = Accept ->
      (includes w.(ui).(code) (js "const ") = true
       \/ exists s, w.(ui).(currentSuggestion) = Some s
                    /\ includes s.(TauriApi.code) (js "const ") = true) ->
      includes w'.(ui).(code) (js "const ") = true).
Proof.
  intros Hr Hev Hstep.
  pose proof (reachable_overlays_agree _ _ Hr) as (Hs & Hn & Hl & Hx).
  pose proof (reachable_one_inflight _ _ Hr) as Hone.
  assert (Hshown : panel (ui w) = true).
  { destruct Hev as [-> | ->]; simpl in Hstep;
      by destruct (panel (ui w)). }
  assert (Hshow : showSuggestion (ui w) = true).
  { unfold panel in Hshown. by destruct (showSuggestion (ui w)). }
  assert (Hload : isLoadingSuggestion (ui w) = false) by auto.
  assert (Hnone : inflight w = []).
  { unfold one_inflight in Hone. destruct (inflight w) as [|r [|r' l]];
      [done|congruence|done]. }
  split.
  - intros Hconst.
    assert (Hw' : ui w' = (ui w' : State)
                  /\ showSuggestion (ui w') = false
                  /\ isLoadingSuggestion (ui w') = false
                  /\ inflight w' = [] /\ timer w' = true).
    { destruct Hev as [-> | ->]; simpl in Hstep; rewrite Hshown in Hstep;
        injection Hstep as <-; simpl; rewrite Hnone;
        (repeat split; try done);
        unfold deps; simpl; rewrite Hshow;
        by rewrite bool_decide_eq_false_2 by (intros [=]). }
    destruct Hw' as (_ & Hs' & Hl' & Hi' & Ht').
    simpl. rewrite Ht'. unfold autoCompletion.
    rewrite Hconst, Hs', Hl'. simpl. rewrite Hi'.
    eexists. split; [reflexivity|]. repeat split.
  - intros -> Hhas. cbn [step] in Hstep. rewrite Hshown in Hstep.
    injection Hstep as <-.
    change (includes (code (acceptSuggestion (ui w))) (js "const ") = true).
    rewrite acceptSuggestion_code.
    destruct Hhas as [Hc|(s & -> & Hc)].
    + destruct (currentSuggestion (ui w)); [|done]. by apply includes_app_l.
    + by apply includes_app_r, includes_app_r.
Qed.

Lemma closed_suggestion_comes_back_witness :
  reachable true Sample.shownA
  /\ (Dismiss = Accept \/ Dismiss = Dismiss)
  /\ step true Sample.shownA Dismiss = Some Sample.dismissedA
  /\ (includes Sample.dismissedA.(ui).(code) (js "const ") = true ->
      exists w'',
        step true Sample.dismissedA TimerFires = Some w''
        /\ w''.(inflight)
           = [ {| rid := Sample.dismissedA.(issued);
                  request_context := context;
                  request_level := Component |} ]
        /\ w''.(issued) = S Sample.dismissedA.(issued)
        /\ w''.(ui).(isLoadingSuggestion) = true)
     /\ (Dismiss = Accept ->
         (includes Sample.shownA.(ui).(code) (js "const ") = true
          \/ exists s, Sample.shownA.(ui).(currentSuggestion) = Some s
                       /\ includes s.(TauriApi.code) (js "const ") = true) ->
         includes Sample.dismissedA.(ui).(code) (js "const ") = true).
Proof.
  assert (Hstep : step true Sample.shownA Dismiss = Some Sample.dismissedA)
    by (vm_compute; reflexivity).
  split; [exact shownA_reachable|]. split; [right; reflexivity|].
  split; [exact Hstep|].
  exact (closed_suggestion_comes_back true Sample.shownA Sample.dismissedA
           Dismiss shownA_reachable (or_intror eq_refl) Hstep).
Defined.

End EditorOverlays.

(** ** The sidebars: folders and the chat *)

Section SidebarFolders.
Import Sidebar.
#[local] Opaque js.

Lemma filter_keeps_all {A} (P : A -> Prop) `{!forall x, Decision (P x)}
    (l : list A) :
  Forall P l -> filter P l = l.
Proof.
  induction 1 as [|x l Hx _ IH]; [done|].
  rewrite filter_cons_True by done. by rewrite IH.
Qed.

Lemma toggled_NoDup (l : list jsstring) (f : jsstring) :
  NoDup l ->
  NoDup (if bool_decide (f ∈ l) then filter (fun g => g <> f) l
         else l ++ [f]).
Proof.
  intros Hl. case_bool_decide as Hin; [by apply NoDup_filter|].
  apply NoDup_app. split; [done|]. split; [|apply NoDup_singleton].
  intros x Hx Hxf. apply list_elem_of_singleton in Hxf. by subst.
Qed.

(** X10. The expanded folders are a set, kept in insertion order.
    [toggleFolder] flips the folder it is given and no other, keeps the set
    free of duplicates, and touches neither the chat nor its input; a
    second toggle of the same folder gives the set back, in the same order
    when the folder was collapsed to begin with. *)
Theorem toggleFolder_flips (st : State) (folderName : jsstring) :
  NoDup st.(expandedFolders) ->
  let st' := toggleFolder st folderName in
  NoDup st'.(expandedFolders)
  /\ (folderName ∈ st'.(expandedFolders)
      <-> folderName ∉ st.(expandedFolders))
  /\ (forall other, other <> folderName ->
        other ∈ st'.(expandedFolders) <-> other ∈ st.(expandedFolders))
  /\ (toggleFolder st' folderName).(expandedFolders)
     ≡ₚ st.(expandedFolders)
  /\ (folderName ∉ st.(expandedFolders) ->
      (toggleFolder st' folderName).(expandedFolders)
      = st.(expandedFolders))
  /\ st'.(messages) = st.(messages)
  /\ st'.(chatInput) = st.(chatInput)
  /\ st'.(suggestedFiles) = st.(suggestedFiles).
Proof.
  intros Hl st'.
  pose proof (toggled_NoDup _ folderName Hl) as Hl'.
  split; [exact Hl'|]. unfold st', toggleFolder in *.
  cbn [expandedFolders messages chatInput suggestedFiles] in *.
  destruct (decide (folderName ∈ expandedFolders st)) as [Hin|Hin].
  - rewrite (bool_decide_eq_true_2 _ Hin) in *.
    assert (Hout : folderName
                   ∉ filter (fun g => g <> folderName) (expandedFolders st)).
    { rewrite list_elem_of_filter. tauto. }
    rewrite (bool_decide_eq_false_2 _ Hout).
    split; [tauto|]. split.
    { intros other Hne. rewrite list_elem_of_filter. tauto. }
    split; [|split; [tauto|done]].
    apply NoDup_Permutation; [|done|].
    + apply NoDup_app. split; [done|]. split; [|apply NoDup_singleton].
      intros x Hx Hxf. apply list_elem_of_singleton in Hxf. by subst.
    + intros x. rewrite elem_of_app, list_elem_of_filter,
        list_elem_of_singleton.
      destruct (decide (x = folderName)) as [->|]; tauto.
  - rewrite (bool_decide_eq_false_2 _ Hin) in *.
    assert (Hnow : folderName ∈ expandedFolders st ++ [folderName]).
    { apply elem_of_app. right. by apply list_elem_of_singleton. }
    rewrite (bool_decide_eq_true_2 _ Hnow).
    assert (Hback : filter (fun g => g <> folderName)
                      (expandedFolders st ++ [folderName])
                    = expandedFolders st).
    { rewrite filter_app, filter_cons_False, filter_nil, app_nil_r
        by (intros H; by apply H).
      apply filter_keeps_all, Forall_forall. intros x Hx ->. done. }
    rewrite Hback. split; [tauto|]. split; [|done].
    intros other Hne. rewrite elem_of_app, list_elem_of_singleton. tauto.
Qed.

Lemma toggleFolder_flips_witness :
  NoDup initialState.(expandedFolders)
  /\ NoDup (toggleFolder initialState (js "src")).(expandedFolders)
  /\ (toggleFolder (toggleFolder initialState (js "src")) (js "src"))
       .(expandedFolders)
     ≡ₚ initialState.(expandedFolders).
Proof.
  assert (H : NoDup initialState.(expandedFolders))
    by apply NoDup_singleton.
  destruct (toggleFolder_flips initialState (js "src") H)
    as (H1 & _ & _ & H4 & _).
  split; [exact H|]. split; [exact H1 | exact H4].
Defined.






End SidebarFolders.

(** ** The mock design generator *)

Section MockDesign.
Import TauriApi.
#[local] Opaque js.

(** X12. Outside Tauri the generated design is made from the component
    type alone: the description and the style preferences of the prompt
    play no part, two prompts give the same design exactly when they name
    the same component type, and the call never fails and gives no preview
    URL. *)
Theorem mock_generateDesign_by_component_type (p q : DesignPrompt) :
  (MockAIService.generateDesign p = MockAIService.generateDesign q
   <-> p.(component_type) = q.(component_type))
  /\ exists d,
      MockAIService.generateDesign p = Resolved d
      /\ startsWith d.(component_code) (js "const " ++ p.(component_type))
         = true
      /\ d.(preview_url) = None.
Proof.
  split; [split|].
  - unfold MockAIService.generateDesign. intros H.
    apply (f_equal (fun r => match r with
                             | Resolved d => d.(component_code)
                             | Rejected _ => []
                             end)) in H.
    cbn beta iota delta [component_code] in H.
    by apply app_inv_head, app_inv_tail in H.
  - unfold MockAIService.generateDesign. by intros ->.
  - eexists. split; [reflexivity|]. split; [|reflexivity].
    cbn [component_code]. rewrite (assoc_L (++)).
    apply startsWith_spec. by eexists.
Qed.

End MockDesign.

(** ** The vector store: what a search returns *)

Section SearchFacts.
Import CodeIndex.
Context {Vector : Type}.
Variable array_cosine_similarity : Vector -> Vector -> Q.
#[local] Existing Instances descending_transitive descending_total.

Implicit Types (table : gmap jsstring (@Row Vector)).

Lemma length_scored q table :
  length (scored array_cosine_similarity q table) = size table.
Proof. unfold scored. by rewrite length_map, length_map_to_list. Qed.

Lemma scored_ids q table :
  id <$> scored array_cosine_similarity q table = (map_to_list table).*1.
Proof.
  unfold scored. induction (map_to_list table) as [|kr l IH]; [done|].
  simpl. f_equal. exact IH.
Qed.

Lemma sorted_ids_NoDup q table :
  NoDup (id <$> merge_sort descending
                  (scored array_cosine_similarity q table)).
Proof.
  rewrite merge_sort_Permutation, scored_ids.
  apply NoDup_fst_map_to_list.
Qed.

(** X13. [search_similar] returns as many rows as the limit allows, all
    there are when the table has fewer; no id comes twice; and the rows it
    leaves out are at most as similar to the query as every row it
    returns. *)
Theorem search_similar_takes_the_top (q : Vector) (limit : nat) table :
  let results := search_similar array_cosine_similarity q limit table in
  length results = Nat.min limit (size table)
  /\ NoDup (id <$> results)
  /\ (forall i r,
        table !! i = Some r -> i ∉ (id <$> results) ->
        forall b, b ∈ results ->
          (array_cosine_similarity r.(embedding) q <= b.(similarity))%Q).
Proof.
  intros results. unfold results, search_similar.
  set (sorted := merge_sort descending
                   (scored array_cosine_similarity q table)).
  split; [|split].
  - rewrite length_take. unfold sorted.
    by rewrite merge_sort_Permutation, length_scored.
  - rewrite fmap_take. eapply sublist_NoDup; [|apply sublist_take].
    apply sorted_ids_NoDup.
  - intros i r Hi Hout b Hb.
    set (x := {| id := i; row := r;
                 similarity :=
                   array_cosine_similarity r.(embedding) q |}).
    assert (Hx : x ∈ sorted).
    { unfold sorted. rewrite merge_sort_Permutation.
      by apply elem_of_scored. }
    assert (Hsorted : StronglySorted descending
                        (take limit sorted ++ drop limit sorted)).
    { rewrite take_drop. apply StronglySorted_merge_sort; apply _. }
    rewrite <- (take_drop limit sorted) in Hx.
    apply elem_of_app in Hx as [Hx|Hx].
    + exfalso. apply Hout. apply list_elem_of_fmap. by exists x.
    + exact (StronglySorted_app_1_elem_of _ _ _ b x Hsorted Hb Hx).
Qed.

(** X14. The test of the vector store in the implementation guide, for
    every table: once an embedding is stored, a search whose limit is not
    below the size of the table returns every row, the stored one among
    them under its id and with its similarity to the query, and no other
    row has that id; in an empty table it is the only result. *)
Theorem stored_embedding_is_found (id0 : jsstring) (row0 : @Row Vector)
    (q : Vector) (limit : nat) table :
  let table' := store_embedding id0 row0 table in
  (size table' <= limit)%nat ->
  let results := search_similar array_cosine_similarity q limit table' in
  let found :=
    {| id := id0; row := row0;
       similarity := array_cosine_similarity row0.(embedding) q |} in
  found ∈ results
  /\ length results = size table'
  /\ (forall r, r ∈ results -> r.(id) = id0 -> r = found)
  /\ (table = ∅ -> results = [found]).
Proof.
  intros table' Hsize results found.
  assert (Hall : results
                 = merge_sort descending
                     (scored array_cosine_similarity q table')).
  { unfold results, search_similar. apply take_ge.
    by rewrite merge_sort_Permutation, length_scored. }
  assert (Hin : forall r, r ∈ results <->
                  r ∈ scored array_cosine_similarity q table').
  { intros r. by rewrite Hall, merge_sort_Permutation. }
  split; [|split; [|split]].
  - apply Hin, elem_of_scored. split; [|done].
    unfold table', store_embedding. simpl. by rewrite lookup_insert_eq.
  - by rewrite Hall, merge_sort_Permutation, length_scored.
  - intros r Hr Hid. apply Hin, elem_of_scored in Hr as [Hl Hs].
    unfold table', store_embedding in Hl.
    rewrite Hid, lookup_insert_eq in Hl. injection Hl as Hrow.
    destruct r as [i r s]. simpl in *. unfold found. by subst.
  - intros ->. rewrite Hall. apply Permutation_singleton_r.
    rewrite merge_sort_Permutation. unfold table', store_embedding, scored.
    by rewrite insert_empty, map_to_list_singleton.
Qed.

End SearchFacts.

Lemma stored_embedding_is_found_witness :
  (size (CodeIndex.store_embedding (js "test_1") Sample.test_1 ∅) <= 5)%nat
  /\ CodeIndex.search_similar Sample.closeness (1 # 10) 5
       (CodeIndex.store_embedding (js "test_1") Sample.test_1 ∅)
     = [ {| CodeIndex.id := js "test_1"; CodeIndex.row := Sample.test_1;
            CodeIndex.similarity :=
              Sample.closeness
                Sample.test_1.(CodeIndex.embedding) (1 # 10) |} ].
Proof.
  assert (H : (size (CodeIndex.store_embedding (js "test_1") Sample.test_1 ∅)
               <= 5)%nat) by (vm_compute; lia).
  destruct (stored_embedding_is_found Sample.closeness (js "test_1")
              Sample.test_1 (1 # 10) 5 ∅ H) as (_ & _ & _ & Hempty).
  split; [exact H | exact (Hempty eq_refl)].
Defined.
